(** * cctr: language detection, target selection, translation client and
      configuration store

    A shallow embedding of [src/cctr/translator.py], [src/cctr/config.py] and
    [main] of [src/cctr/cli.py], followed by the properties the
    specification states of them.

    Python values are modelled as follows.
    - [str] is a sequence of Unicode code points; a code point is the integer
      [ord] returns.  String literals of the source are written [lit "..."].
    - a [dict] with [str] keys is a [gmap]; [d.get(k, default)] is
      [default (d !! k)] and [d[k] = v] is [<[k:=v]> d].
    - a raised exception is the [Raise] result; code that may raise is
      written in state-and-error passing style over the [world] it acts on.
    - the stream of the agent is a finite list of events; a stream that
      never ends and never carries a result event, on which the source
      loops forever, has no counterpart here. *)

From Stdlib Require Import ZArith String Ascii List DecimalString.
From stdpp Require Import base decidable option list countable gmap.

Local Open Scope Z_scope.

(** ** Python strings *)

Module Py.

(** A Python [str]: the list of its code points. *)
Definition str : Type := list Z.

(** [ord] of an ASCII character of a source literal. *)
Definition ord_ascii (a : ascii) : Z := Z.of_N (N_of_ascii a).

(** A string literal of the source. *)
Definition lit (s : string) : str := List.map ord_ascii (list_ascii_of_string s).

(** Truth value of an optional string: [None] and [""] are false. *)
Definition truthy (o : option str) : bool :=
  match o with
  | None => false
  | Some [] => false
  | Some (_ :: _) => true
  end.

(** [x or y] on optional strings. *)
Definition or_else (o : option str) (d : str) : str :=
  match o with
  | Some (c :: s) => c :: s
  | _ => d
  end.

(** Code points for which [str.isspace] holds; [str.strip()] removes
    exactly these from both ends. *)
Definition isspace (c : Z) : bool :=
  ((0x09 <=? c) && (c <=? 0x0D)) || ((0x1C <=? c) && (c <=? 0x20))
  || (c =? 0x85) || (c =? 0xA0) || (c =? 0x1680)
  || ((0x2000 <=? c) && (c <=? 0x200A))
  || (c =? 0x2028) || (c =? 0x2029) || (c =? 0x202F) || (c =? 0x205F)
  || (c =? 0x3000).

Fixpoint lstrip (s : str) : str :=
  match s with
  | [] => []
  | c :: s' => if isspace c then lstrip s' else s
  end.

Definition rstrip (s : str) : str := rev (lstrip (rev s)).

Definition strip (s : str) : str := rstrip (lstrip s).

(** [len(s)] *)
Definition len (s : str) : Z := Z.of_nat (length s).

(** [s[:n]] for a literal [n >= 0]. *)
Definition prefix (n : nat) (s : str) : str := take n s.

(** ["".join(l)] *)
Definition join (l : list str) : str := concat l.

End Py.

Import Py.

(** ** translator.py: [LanguageDetector] *)

Module LanguageDetector.

Definition japanese_ranges : list (Z * Z) :=
  [ (0x3040, 0x309F)   (* Hiragana *)
  ; (0x30A0, 0x30FF)   (* Katakana *)
  ; (0x4E00, 0x9FFF)   (* CJK Unified Ideographs (Kanji) *)
  ].

(** The inner loop [for start, end in japanese_ranges]: [true] when the
    [return "ja"] inside it is reached. *)
Fixpoint scan_ranges (code : Z) (ranges : list (Z * Z)) : bool :=
  match ranges with
  | [] => false
  | (start, end_) :: rest =>
      if (start <=? code) && (code <=? end_) then true
      else scan_ranges code rest
  end.

(** The outer loop [for char in text]. *)
Fixpoint detect (text : str) : str :=
  match text with
  | [] => lit "en"
  | char :: rest =>
      let code := char in
      if scan_ranges code japanese_ranges then lit "ja" else detect rest
  end.

End LanguageDetector.

(** Membership in one of the three blocks named by the specification. *)
Definition hiragana (c : Z) : Prop := 0x3040 <= c <= 0x309F.
Definition katakana (c : Z) : Prop := 0x30A0 <= c <= 0x30FF.
Definition cjk_unified (c : Z) : Prop := 0x4E00 <= c <= 0x9FFF.
Definition japanese_char (c : Z) : Prop := hiragana c \/ katakana c \/ cjk_unified c.

(** ** Results of code that may raise *)

Inductive res (E A : Type) : Type :=
| Ok (a : A)
| Raise (e : E).
Arguments Ok {E A} a.
Arguments Raise {E A} e.

(** ** What lies outside the repository

    Floats (the cost figure of the SDK), exceptions and PyYAML are used by
    the code but not defined by it; the embedding is parametric in them.
    [safe_load] gives [Ok None] for an empty document and [Ok (Some d)] for
    a mapping; documents of any other shape fall outside the return type
    [dict] that [_load_config] declares. *)

Class Runtime : Type := {
  float : Type;
  float_bool : float -> bool;          (* truth value of a float *)
  float_gt0 : float -> bool;           (* [x > 0] *)
  format_6f : float -> str;            (* [f"{x:.6f}"] *)
  exn : Type;
  safe_dump : gmap str str -> str;     (* text written by [yaml.safe_dump] *)
  safe_load : str -> res exn (option (gmap str str))
}.

(** ** translator.py: the agent SDK's messages *)

Section Messages.
Context `{Runtime}.

Inductive block : Type :=
| TextBlock (text : str)
| ToolUseBlock (id name : str)
| OtherBlock.

Inductive message : Type :=
| AssistantMessage (content : list block)
| ResultMessage (total_cost_usd : option float)
| UserMessage
| OtherMessage.

(** What [receive_messages] yields next: a message, or the transport
    raises.  The end of the list is the end of the stream. *)
Inductive item : Type :=
| Message (m : message)
| Error (e : exn).

Record ClaudeAgentOptions : Type := {
  opt_model : str;
  permission_mode : str
}.

(** One client session as the external agent plays it. *)
Record session : Type := {
  connect_error : option exn;     (* raised on entering [async with] *)
  query_error : option exn;       (* raised by [client.query] *)
  incoming : list item            (* what [receive_messages] yields *)
}.

(** The external agent: how the [n]-th session opened by the process
    answers the options and prompt it is given.  Asking again would reach
    session [n + 1]. *)
Definition agent : Type := nat -> ClaudeAgentOptions -> str -> session.

(** The state the program acts on. *)
Record world : Type := {
  opened : nat;                                (* sessions opened so far *)
  sent : list (ClaudeAgentOptions * str);      (* queries issued so far *)
  stdout : list str;                           (* one entry per [print] *)
  live : option (list str);                    (* progress lines on display *)
  config_yaml : option str                     (* the configuration file *)
}.

(** A progress callback that returns from every call, as its type
    [Callable[[str, Optional[float]], None]] has it: it yields nothing and
    may act on the world in any way.  A callback that raises is the matter
    of [Unguarded] below. *)
Definition callback : Type := str -> option float -> world -> world.

End Messages.

(** ** translator.py: [Translator]

    Diagnostics written to the standard error stream (the [debug] prints) are
    not part of the model: they return nothing and feed no variable. *)

Module Translator.
Section Translator.
Context `{Runtime}.

Definition MODEL_ALIASES : gmap str str :=
  <[lit "haiku" := lit "claude-3-5-haiku-20241022"]>
  (<[lit "sonnet" := lit "claude-3-5-sonnet-20241022"]>
  (<[lit "opus" := lit "claude-opus-4-20250514"]> ∅)).

Definition LANGUAGE_NAMES : gmap str str :=
  <[lit "en" := lit "English"]>
  (<[lit "ja" := lit "Japanese"]>
  (<[lit "zh" := lit "Chinese"]>
  (<[lit "ko" := lit "Korean"]>
  (<[lit "es" := lit "Spanish"]>
  (<[lit "fr" := lit "French"]>
  (<[lit "de" := lit "German"]>
  (<[lit "it" := lit "Italian"]>
  (<[lit "pt" := lit "Portuguese"]>
  (<[lit "ru" := lit "Russian"]> ∅))))))))).

Definition _resolve_model (model : str) : str :=
  default model (MODEL_ALIASES !! model).

Definition _get_language_name (code : str) : str :=
  default code (LANGUAGE_NAMES !! code).

(** The object [__init__] builds. *)
Record t : Type := {
  model : str;
  debug : bool;
  quiet : bool;
  progress_callback : option callback
}.

Definition __init__ (model : str) (debug quiet : bool)
    (progress_callback : option callback) : t :=
  {| model := _resolve_model model;
     debug := debug;
     quiet := quiet;
     progress_callback := progress_callback |}.

(** [if self.progress_callback and not self.quiet:
       self.progress_callback(msg, cost)] *)
Definition notify (self : t) (msg : str) (cost : option float) (w : world) : world :=
  match progress_callback self with
  | Some cb => if negb (quiet self) then cb msg cost w else w
  | None => w
  end.

(** The local variables of [_translate_async]. *)
Record locals : Type := {
  assistant_messages : list str;
  message_count : Z;
  tool_uses : list str;
  total_cost : option float;
  accumulated_text : str
}.

Definition initial_locals : locals :=
  {| assistant_messages := [];
     message_count := 0;
     tool_uses := [];
     total_cost := None;
     accumulated_text := lit "" |}.

(** The streaming preview handed to the callback. *)
Definition preview_of (accumulated : str) : str :=
  let preview := strip accumulated in
  if 50 <? len preview then prefix 47 preview ++ lit "..." else preview.

(** [for block in message.content]: threads [text_blocks], the locals the
    body updates and the world the callback acts on. *)
Fixpoint for_blocks (self : t) (content : list block)
    (text_blocks : list str) (v : locals) (w : world)
    : list str * locals * world :=
  match content with
  | [] => (text_blocks, v, w)
  | TextBlock text :: rest =>
      let text_blocks := text_blocks ++ [text] in
      let acc := accumulated_text v ++ text in
      let v := {| assistant_messages := assistant_messages v;
                  message_count := message_count v;
                  tool_uses := tool_uses v;
                  total_cost := total_cost v;
                  accumulated_text := acc |} in
      let w := notify self (lit "Translating: " ++ preview_of acc) None w in
      for_blocks self rest text_blocks v w
  | ToolUseBlock _ name :: rest =>
      let v := {| assistant_messages := assistant_messages v;
                  message_count := message_count v;
                  tool_uses := tool_uses v ++ [name];
                  total_cost := total_cost v;
                  accumulated_text := accumulated_text v |} in
      let w := notify self (lit "Using tool: " ++ name) None w in
      for_blocks self rest text_blocks v w
  | OtherBlock :: rest => for_blocks self rest text_blocks v w
  end.

(** The body of the [ResultMessage] branch, up to its [break]. *)
Definition on_result (self : t) (total_cost_usd : option float)
    (v : locals) (w : world) : locals * world :=
  let cost :=
    match total_cost_usd with
    | Some c => if float_bool c then Some c else total_cost v
    | None => total_cost v
    end in
  let v := {| assistant_messages := assistant_messages v;
              message_count := message_count v;
              tool_uses := tool_uses v;
              total_cost := cost;
              accumulated_text := accumulated_text v |} in
  let w :=
    match cost with
    | Some c =>
        if float_bool c && float_gt0 c
        then notify self (lit "Translation complete (Cost: $" ++ format_6f c ++ lit ")") cost w
        else notify self (lit "Translation complete") cost w
    | None => notify self (lit "Translation complete") cost w
    end in
  (v, w).

(** [async for message in client.receive_messages()]: ends when the stream
    ends, at the [break] of the [ResultMessage] branch, or when the
    transport raises. *)
Fixpoint receive_loop (self : t) (stream : list item) (v : locals) (w : world)
    : res exn locals * world :=
  match stream with
  | [] => (Ok v, w)
  | Error e :: _ => (Raise e, w)
  | Message m :: rest =>
      let v := {| assistant_messages := assistant_messages v;
                  message_count := message_count v + 1;
                  tool_uses := tool_uses v;
                  total_cost := total_cost v;
                  accumulated_text := accumulated_text v |} in
      match m with
      | AssistantMessage content =>
          let '(text_blocks, v, w) := for_blocks self content [] v w in
          let v :=
            match text_blocks with
            | [] => v
            | _ :: _ =>
                {| assistant_messages := assistant_messages v ++ [join text_blocks];
                   message_count := message_count v;
                   tool_uses := tool_uses v;
                   total_cost := total_cost v;
                   accumulated_text := accumulated_text v |}
            end in
          receive_loop self rest v w
      | ResultMessage total_cost_usd =>
          let '(v, w) := on_result self total_cost_usd v w in
          (Ok v, w)
      | UserMessage => receive_loop self rest v w
      | OtherMessage => receive_loop self rest v w
      end
  end.

Section WithAgent.
Variable service : agent.

Definition _translate_async (self : t) (prompt : str) (w : world)
    : res exn str * world :=
  let options := {| opt_model := model self;
                    permission_mode := lit "bypassPermissions" |} in
  let conn := service (opened w) options prompt in
  let w := {| opened := S (opened w); sent := sent w; stdout := stdout w;
              live := live w; config_yaml := config_yaml w |} in
  match connect_error conn with
  | Some e => (Raise e, w)
  | None =>
      let w := {| opened := opened w; sent := sent w ++ [(options, prompt)];
                  stdout := stdout w; live := live w;
                  config_yaml := config_yaml w |} in
      match query_error conn with
      | Some e => (Raise e, w)
      | None =>
          match receive_loop self (incoming conn) initial_locals w with
          | (Raise e, w) => (Raise e, w)
          | (Ok v, w) =>
              (Ok match last (assistant_messages v) with
                  | Some m => strip m
                  | None => lit ""
                  end, w)
          end
      end
  end.

Definition build_prompt (source_lang_name target_lang_name text : str) : str :=
  lit "Translate the following text from " ++ source_lang_name
    ++ lit " to " ++ target_lang_name ++ lit "." ++ [10]
    ++ lit "Output ONLY the translation, without any explanations, comments, or additional text."
    ++ [10] ++ [10]
    ++ lit "Text to translate:" ++ [10]
    ++ text.

Definition translate (self : t) (text target_language : str)
    (source_language : option str) (w : world) : res exn str * world :=
  let source_language :=
    match source_language with
    | None => LanguageDetector.detect text
    | Some s => s
    end in
  let target_lang_name := _get_language_name target_language in
  let source_lang_name := _get_language_name source_language in
  let prompt := build_prompt source_lang_name target_lang_name text in
  _translate_async self prompt w.

Definition auto_translate (self : t) (text native_language : str) (w : world)
    : res exn str * world :=
  let detected_lang := LanguageDetector.detect text in
  let target_language :=
    if decide (detected_lang = native_language) then lit "en"
    else native_language in
  translate self text target_language (Some detected_lang) w.

End WithAgent.
End Translator.
End Translator.

(** ** What the process reads from its surroundings

    The locale, the path [get_config_file] computes, the standard input and
    the two strings of the package's [__init__]. *)

Record environ `{Runtime} : Type := {
  getdefaultlocale : res exn (option str);   (* language part of the locale *)
  config_file_path : str;
  stdin_isatty : bool;
  stdin_read : str;
  __version__ : str;
  __build_time__ : str
}.

(** ** config.py *)

Module Config.
Section Config.
Context `{Runtime}.
Variable os : environ.

(** [lang.split("_")[0]] *)
Fixpoint before_underscore (lang : str) : str :=
  match lang with
  | [] => []
  | c :: rest => if c =? 95 then [] else c :: before_underscore rest
  end.

Definition get_system_language : str :=
  match getdefaultlocale os with
  | Ok (Some (c :: lang)) => before_underscore (c :: lang)
  | Ok _ => lit "en"
  | Raise _ => lit "en"
  end.

Record t : Type := {
  config_file : str;
  _config : gmap str str
}.

Definition _save_config (config : gmap str str) (w : world) : world :=
  {| opened := opened w; sent := sent w; stdout := stdout w; live := live w;
     config_yaml := Some (safe_dump config) |}.

(** [yaml.safe_load(f) or {}] *)
Definition or_empty (doc : option (gmap str str)) : gmap str str :=
  match doc with
  | Some d => if decide (d = ∅) then ∅ else d
  | None => ∅
  end.

Definition _load_config (w : world) : res exn (gmap str str) * world :=
  match config_yaml w with
  | Some text =>
      match safe_load text with
      | Ok doc => (Ok (or_empty doc), w)
      | Raise e => (Raise e, w)
      end
  | None =>
      let default_config : gmap str str :=
        <[lit "native_language" := get_system_language]>
        (<[lit "default_model" := lit "haiku"]> ∅) in
      (Ok default_config, _save_config default_config w)
  end.

Definition __init__ (w : world) : res exn t * world :=
  match _load_config w with
  | (Ok d, w) => (Ok {| config_file := config_file_path os; _config := d |}, w)
  | (Raise e, w) => (Raise e, w)
  end.

Definition native_language (self : t) : str :=
  default get_system_language (_config self !! lit "native_language").

Definition set_native_language (self : t) (value : str) (w : world) : t * world :=
  let self := {| config_file := config_file self;
                 _config := <[lit "native_language" := value]> (_config self) |} in
  (self, _save_config (_config self) w).

Definition default_model (self : t) : str :=
  default (lit "haiku") (_config self !! lit "default_model").

Definition set_default_model (self : t) (value : str) (w : world) : t * world :=
  let self := {| config_file := config_file self;
                 _config := <[lit "default_model" := value]> (_config self) |} in
  (self, _save_config (_config self) w).

Definition get (self : t) (key : str) (default_ : option str) : option str :=
  match _config self !! key with
  | Some v => Some v
  | None => default_
  end.

Definition set (self : t) (key value : str) (w : world) : t * world :=
  let self := {| config_file := config_file self;
                 _config := <[key := value]> (_config self) |} in
  (self, _save_config (_config self) w).

End Config.
End Config.

(** ** cli.py

    Arguments arrive parsed; writes to the standard error stream are not
    modelled, the progress display is. *)

Module Cli.
Section Cli.
Context `{Runtime}.
Variable os : environ.
Variable service : agent.

Record args : Type := {
  text : option str;
  target_language : option str;
  source_language : option str;
  model : option str;
  show_config_flag : bool;
  set_native_lang : option str;
  set_default_model : option str;
  version : bool;
  debug : bool;
  quiet : bool
}.

(** [print(line)] *)
Definition print (line : str) (w : world) : world :=
  {| opened := opened w; sent := sent w; stdout := stdout w ++ [line];
     live := live w; config_yaml := config_yaml w |}.

Definition set_live (d : option (list str)) (w : world) : world :=
  {| opened := opened w; sent := sent w; stdout := stdout w;
     live := d; config_yaml := config_yaml w |}.

Definition show_version (w : world) : world :=
  print (lit "Build time: " ++ __build_time__ os)
    (print (lit "cctr version " ++ __version__ os) w).

Definition show_config (config : Config.t) (w : world) : world :=
  print (lit "  Default model: " ++ Config.default_model config)
    (print (lit "  Native language: " ++ Config.native_language os config)
      (print (lit "  Config file: " ++ Config.config_file config)
        (print (lit "Current Configuration:") w))).

(** The closure [progress_callback] of [main]: one dimmed line under the
    spinner. *)
Definition progress_callback (message : str) (cost : option float) (w : world) : world :=
  set_live (Some [lit "  " ++ message]) w.

(** The request both branches of the [try] make. *)
Definition request (translator : Translator.t) (a : args) (config : Config.t)
    (text : str) (w : world) : res exn str * world :=
  if truthy (target_language a)
  then Translator.translate service translator text
         (default [] (target_language a)) (source_language a) w
  else Translator.auto_translate service translator text
         (Config.native_language os config) w.

Definition main (a : args) (w : world) : res exn Z * world :=
  if version a then (Ok 0, show_version w) else
  match Config.__init__ os w with
  | (Raise e, w) => (Raise e, w)
  | (Ok config, w) =>
      if show_config_flag a then (Ok 0, show_config config w) else
      if truthy (set_native_lang a) then
        let value := default [] (set_native_lang a) in
        let '(_, w) := Config.set_native_language config value w in
        (Ok 0, print (lit "Native language set to: " ++ value) w)
      else if truthy (set_default_model a) then
        let value := default [] (set_default_model a) in
        let '(_, w) := Config.set_default_model config value w in
        (Ok 0, print (lit "Default model set to: " ++ value) w)
      else
        let input :=
          if truthy (text a) then Some (default [] (text a))
          else if stdin_isatty os then None
          else Some (strip (stdin_read os)) in
        match input with
        | None => (Ok 1, w)
        | Some [] => (Ok 1, w)
        | Some (c :: s) =>
            let text := c :: s in
            let model := or_else (model a) (Config.default_model config) in
            let '(outcome, w) :=
              if quiet a then
                let translator_quiet :=
                  Translator.__init__ model (debug a) (quiet a) None in
                request translator_quiet a config text w
              else
                let w := set_live (Some []) w in
                let translator_with_progress :=
                  Translator.__init__ model (debug a) (quiet a)
                    (Some progress_callback) in
                let '(r, w) := request translator_with_progress a config text w in
                (r, set_live None w) in
            match outcome with
            | Ok result => (Ok 0, print result w)
            | Raise e => (Ok 1, w)
            end
        end
  end.

End Cli.
End Cli.

(** ** Terms the theorems are stated in

    These are written apart from the loop of [_translate_async]; the
    theorems below relate the two.  A turn here is the unit the code
    collects, one string per assistant message that carries text; the turn
    of the specification's glossary comes further down. *)

Section SpecTerms.
Context `{Runtime}.

(** The events that arrive before the first terminal result event. *)
Fixpoint events_until_result (msgs : list message) : list message :=
  match msgs with
  | [] => []
  | ResultMessage _ :: _ => []
  | m :: rest => m :: events_until_result rest
  end.

(** The textual segments of a content list, in order. *)
Definition text_segments (content : list block) : list str :=
  omap (fun b => match b with TextBlock text => Some text | _ => None end) content.

(** The turn a message contributes, read as the code collects it: the
    concatenation of the text blocks of an assistant message that has at
    least one, tool-use blocks between them notwithstanding; two assistant
    messages give two turns. *)
Definition turn_of (m : message) : option str :=
  match m with
  | AssistantMessage content =>
      match text_segments content with
      | [] => None
      | segs => Some (concat segs)
      end
  | _ => None
  end.

(** All such turns before the terminal event, in arrival order. *)
Definition turns (msgs : list message) : list str :=
  omap turn_of (events_until_result msgs).

(** The last turn, trimmed; the empty string when there is none. *)
Definition final_turn (msgs : list message) : str :=
  match last (turns msgs) with
  | Some t => strip t
  | None => lit ""
  end.

(** The events a stream delivers: those that arrive before the transport
    raises, if it does. *)
Fixpoint delivered (stream : list item) : list message :=
  match stream with
  | [] => []
  | Error _ :: _ => []
  | Message m :: rest => m :: delivered rest
  end.

(** A session on which the transport never raises and that streams
    [msgs]. *)
Definition streaming (msgs : list message) : session :=
  {| connect_error := None; query_error := None;
     incoming := List.map Message msgs |}.

(** The session [_translate_async] opens for a prompt. *)
Definition session_for (service : agent) (self : Translator.t) (prompt : str)
    (w : world) : session :=
  service (opened w)
    {| opt_model := Translator.model self;
       permission_mode := lit "bypassPermissions" |} prompt.

(** The first error the transport raises while the stream is consumed:
    none once a terminal result event has been seen. *)
Fixpoint stream_failure (stream : list item) : option exn :=
  match stream with
  | [] => None
  | Error e :: _ => Some e
  | Message (ResultMessage _) :: _ => None
  | Message _ :: rest => stream_failure rest
  end.

(** The error a session raises during one request, if any. *)
Definition transport_failure (conn : session) : option exn :=
  match connect_error conn with
  | Some e => Some e
  | None =>
      match query_error conn with
      | Some e => Some e
      | None => stream_failure (incoming conn)
      end
  end.

(** The specification's [selectTarget]: the source is the detected
    language; the target is English when the source is the native
    language, and the native language otherwise. *)
Definition selectTarget (text nativeLanguage : str) : str * str :=
  let source := LanguageDetector.detect text in
  if decide (source = nativeLanguage) then (source, lit "en")
  else (source, nativeLanguage).

(** The callback of [self], if any, leaves the observation [f] of the
    world as it was. *)
Definition keeps {A : Type} (f : world -> A) (self : Translator.t) : Prop :=
  forall (cb : callback) (msg : str) (cost : option float) (w : world),
    Translator.progress_callback self = Some cb -> f (cb msg cost w) = f w.

(** PyYAML reads back the mapping it wrote. *)
Definition yaml_round_trip : Prop :=
  forall d : gmap str str, safe_load (safe_dump d) = Ok (Some d).

End SpecTerms.

(** ** A small runtime to run the definitions on

    Costs are counted in millionths of a dollar, an exception is its
    message, and the configuration file holds the code of the mapping. *)

Module Demo.

Definition digits (n : Z) : str :=
  lit (DecimalString.NilZero.string_of_uint (N.to_uint (Z.to_N n))).

Definition pad6 (s : str) : str := replicate (6 - length s)%nat 48 ++ s.

Definition format_micro (c : Z) : str :=
  (if c <? 0 then lit "-" else lit "")
    ++ digits (Z.abs c / 1000000) ++ lit "." ++ pad6 (digits (Z.abs c mod 1000000)).

Definition dump (d : gmap str str) : str := [Z.pos (encode d)].

Definition load (s : str) : res str (option (gmap str str)) :=
  match s with
  | [] => Ok None
  | [Z.pos p] =>
      match decode p with
      | Some d => Ok (Some d)
      | None => Raise (lit "not a mapping")
      end
  | _ => Raise (lit "not a mapping")
  end.

#[export] Instance runtime : Runtime :=
  {| float := Z;
     float_bool := fun c => negb (c =? 0);
     float_gt0 := fun c => 0 <? c;
     format_6f := format_micro;
     exn := str;
     safe_dump := dump;
     safe_load := load |}.

Definition os : environ :=
  {| getdefaultlocale := Ok (Some (lit "ja_JP"));
     config_file_path := lit "/home/user/.config/cctr/config.yaml";
     stdin_isatty := true;
     stdin_read := lit "";
     __version__ := lit "0.1.0";
     __build_time__ := lit "dev" |}.

Definition fresh : world :=
  {| opened := 0; sent := []; stdout := []; live := None; config_yaml := None |}.

Definition konnichiwa : str := [0x3053; 0x3093; 0x306B; 0x3061; 0x306F].

(** An agent that answers every prompt with [msgs]. *)
Definition replying (stream : list item) : agent :=
  fun _ _ _ => {| connect_error := None; query_error := None; incoming := stream |}.

Definition plain : Translator.t := Translator.__init__ (lit "haiku") false false None.

(** An agent that translates into French for a cost of $0.00125. *)
Definition bonjour : agent :=
  replying [Message (AssistantMessage [TextBlock (lit " Bonjour ")]);
            Message (ResultMessage (Some 1250))].

(** Two turns, a tool call inside the second, and an event after the
    terminal one. *)
Definition chatty : list item :=
  [Message (AssistantMessage [TextBlock (lit "Salut")]);
   Message UserMessage;
   Message (AssistantMessage
              [TextBlock (lit " Bon"); ToolUseBlock (lit "t1") (lit "Bash");
               TextBlock (lit "jour ")]);
   Message (ResultMessage None);
   Message (AssistantMessage [TextBlock (lit "late")])].

(** An agent whose transport breaks after a first piece of text. *)
Definition broken : agent :=
  replying [Message (AssistantMessage [TextBlock (lit "Bon")]);
            Error (lit "connection reset")].

(** [cctr "Hello"] *)
Definition hello : Cli.args :=
  {| Cli.text := Some (lit "Hello");
     Cli.target_language := None;
     Cli.source_language := None;
     Cli.model := None;
     Cli.show_config_flag := false;
     Cli.set_native_lang := None;
     Cli.set_default_model := None;
     Cli.version := false;
     Cli.debug := false;
     Cli.quiet := false |}.

Definition stored : Config.t :=
  {| Config.config_file := config_file_path os;
     Config._config := <[lit "default_model" := lit "opus"]> ∅ |}.

End Demo.

(** ** Terms of the further properties *)

Section MoreTerms.
Context `{Runtime}.

(** An agent whose every session connects, accepts the query and yields
    [stream]. *)
Definition answering (stream : list item) : agent :=
  fun _ _ _ => {| connect_error := None; query_error := None; incoming := stream |}.

End MoreTerms.

Section CallbackTerms.
Context `{Runtime}.

(** A callback that keeps a record of the messages it is called with, one
    entry per call. *)
Definition recording : callback := fun msg _ w => Cli.print msg w.

(** The blocks of a content list the loop reports: text and tool use. *)
Fixpoint reported (content : list block) : nat :=
  match content with
  | [] => 0
  | OtherBlock :: rest => reported rest
  | _ :: rest => S (reported rest)
  end.

(** The number of progress reports a stream of messages calls for: one per
    text or tool-use block that arrives before the first result event, and
    one for that event if it arrives. *)
Fixpoint progress_calls (msgs : list message) : nat :=
  match msgs with
  | [] => 0
  | ResultMessage _ :: _ => 1
  | AssistantMessage content :: rest => reported content + progress_calls rest
  | _ :: rest => progress_calls rest
  end.

(** A translator that never calls back. *)
Definition silent (self : Translator.t) : Prop :=
  forall msg cost w, Translator.notify self msg cost w = w.

End CallbackTerms.

Module Demo2.
Import Demo.

(** A machine whose configuration file exists and is empty. *)
Definition empty_file : world :=
  {| opened := 0; sent := []; stdout := []; live := None; config_yaml := Some [] |}.

(** A machine whose configuration file is not YAML. *)
Definition broken_file : world :=
  {| opened := 0; sent := []; stdout := []; live := None; config_yaml := Some [58; 58] |}.

End Demo2.

(** Variations of the arguments of [main]. *)

Definition with_source_language (s : option str) (a : Cli.args) : Cli.args :=
  {| Cli.text := Cli.text a;
     Cli.target_language := Cli.target_language a;
     Cli.source_language := s;
     Cli.model := Cli.model a;
     Cli.show_config_flag := Cli.show_config_flag a;
     Cli.set_native_lang := Cli.set_native_lang a;
     Cli.set_default_model := Cli.set_default_model a;
     Cli.version := Cli.version a;
     Cli.debug := Cli.debug a;
     Cli.quiet := Cli.quiet a |}.

Definition with_set_default_model (s : option str) (a : Cli.args) : Cli.args :=
  {| Cli.text := Cli.text a;
     Cli.target_language := Cli.target_language a;
     Cli.source_language := Cli.source_language a;
     Cli.model := Cli.model a;
     Cli.show_config_flag := Cli.show_config_flag a;
     Cli.set_native_lang := Cli.set_native_lang a;
     Cli.set_default_model := s;
     Cli.version := Cli.version a;
     Cli.debug := Cli.debug a;
     Cli.quiet := Cli.quiet a |}.

Definition with_quiet (q : bool) (a : Cli.args) : Cli.args :=
  {| Cli.text := Cli.text a;
     Cli.target_language := Cli.target_language a;
     Cli.source_language := Cli.source_language a;
     Cli.model := Cli.model a;
     Cli.show_config_flag := Cli.show_config_flag a;
     Cli.set_native_lang := Cli.set_native_lang a;
     Cli.set_default_model := Cli.set_default_model a;
     Cli.version := Cli.version a;
     Cli.debug := Cli.debug a;
     Cli.quiet := q |}.

(** An argument given as the empty string, taken as not given. *)
Definition absent_if_empty (o : option str) : option str :=
  match o with
  | Some [] => None
  | _ => o
  end.

(** The arguments with every empty string but that of [--from] taken as
    not given. *)
Definition without_empty (a : Cli.args) : Cli.args :=
  {| Cli.text := absent_if_empty (Cli.text a);
     Cli.target_language := absent_if_empty (Cli.target_language a);
     Cli.source_language := Cli.source_language a;
     Cli.model := absent_if_empty (Cli.model a);
     Cli.show_config_flag := Cli.show_config_flag a;
     Cli.set_native_lang := absent_if_empty (Cli.set_native_lang a);
     Cli.set_default_model := absent_if_empty (Cli.set_default_model a);
     Cli.version := Cli.version a;
     Cli.debug := Cli.debug a;
     Cli.quiet := Cli.quiet a |}.

(** [main] goes as far as reading its input: none of [--version],
    [--show-config], [--set-native-lang], [--set-default-model] is given. *)
Definition asks_translation (a : Cli.args) : Prop :=
  Cli.version a = false /\ Cli.show_config_flag a = false
  /\ truthy (Cli.set_native_lang a) = false
  /\ truthy (Cli.set_default_model a) = false.

Module Demo3.
Import Demo.

(** [cctr --set-native-lang fr --set-default-model opus] *)
Definition set_both : Cli.args :=
  {| Cli.text := None;
     Cli.target_language := None;
     Cli.source_language := None;
     Cli.model := None;
     Cli.show_config_flag := false;
     Cli.set_native_lang := Some (lit "fr");
     Cli.set_default_model := Some (lit "opus");
     Cli.version := false;
     Cli.debug := false;
     Cli.quiet := false |}.

(** [cctr --from de "Hello"] *)
Definition from_only : Cli.args := with_source_language (Some (lit "de")) hello.

End Demo3.

Module Demo4.
Import Demo.

(** [cctr] with nothing on the command line, at a terminal. *)
Definition bare : Cli.args :=
  {| Cli.text := None;
     Cli.target_language := None;
     Cli.source_language := None;
     Cli.model := None;
     Cli.show_config_flag := false;
     Cli.set_native_lang := None;
     Cli.set_default_model := None;
     Cli.version := false;
     Cli.debug := false;
     Cli.quiet := false |}.

(** [cctr --model sonnet "  "]: a text of two spaces. *)
Definition blank_text : Cli.args :=
  {| Cli.text := Some [32; 32];
     Cli.target_language := None;
     Cli.source_language := None;
     Cli.model := Some (lit "sonnet");
     Cli.show_config_flag := false;
     Cli.set_native_lang := None;
     Cli.set_default_model := None;
     Cli.version := false;
     Cli.debug := false;
     Cli.quiet := true |}.

End Demo4.

(** ** The specification's glossary turn

    The glossary of the specification defines a turn as one contiguous
    burst of textual output, terminated by a non-text event or by the end
    of the stream.  These terms follow those words: a text block is a piece
    of text, every other block and every message that is not an assistant
    message is a non-text event, and the boundary between two assistant
    messages is no event at all. *)

Section GlossaryTerms.
Context `{Runtime}.





End GlossaryTerms.

(** ** translator.py with a callback that may raise

    [Translator] above takes the progress callback at its type, a function
    that returns.  Python lets any call raise, and the three calls of the
    callback in [_translate_async] stand in no [try]: this module is the same
    code with a callback whose call either returns or raises, having acted
    on the world in both cases.  An exception of the callback leaves the
    loops and the call as any other exception does. *)

Module Unguarded.
Section Unguarded.
Context `{Runtime}.

(** The callbacks of [Translator], which return. *)
Definition returning_callback : Type := callback.

(** A call of the callback: [None] when it returns, [Some e] when it
    raises [e]. *)
Definition callback : Type := str -> option float -> world -> option exn * world.

Record t : Type := {
  model : str;
  debug : bool;
  quiet : bool;
  progress_callback : option callback
}.

Definition __init__ (model : str) (debug quiet : bool)
    (progress_callback : option callback) : t :=
  {| model := Translator._resolve_model model;
     debug := debug;
     quiet := quiet;
     progress_callback := progress_callback |}.

(** [if self.progress_callback and not self.quiet:
       self.progress_callback(msg, cost)] *)
Definition notify (self : t) (msg : str) (cost : option float) (w : world)
    : option exn * world :=
  match progress_callback self with
  | Some cb => if negb (quiet self) then cb msg cost w else (None, w)
  | None => (None, w)
  end.

(** [for block in message.content] *)
Fixpoint for_blocks (self : t) (content : list block)
    (text_blocks : list str) (v : Translator.locals) (w : world)
    : res exn (list str * Translator.locals) * world :=
  match content with
  | [] => (Ok (text_blocks, v), w)
  | TextBlock text :: rest =>
      let text_blocks := text_blocks ++ [text] in
      let acc := Translator.accumulated_text v ++ text in
      let v := {| Translator.assistant_messages := Translator.assistant_messages v;
                  Translator.message_count := Translator.message_count v;
                  Translator.tool_uses := Translator.tool_uses v;
                  Translator.total_cost := Translator.total_cost v;
                  Translator.accumulated_text := acc |} in
      match notify self (lit "Translating: " ++ Translator.preview_of acc) None w with
      | (Some e, w) => (Raise e, w)
      | (None, w) => for_blocks self rest text_blocks v w
      end
  | ToolUseBlock _ name :: rest =>
      let v := {| Translator.assistant_messages := Translator.assistant_messages v;
                  Translator.message_count := Translator.message_count v;
                  Translator.tool_uses := Translator.tool_uses v ++ [name];
                  Translator.total_cost := Translator.total_cost v;
                  Translator.accumulated_text := Translator.accumulated_text v |} in
      match notify self (lit "Using tool: " ++ name) None w with
      | (Some e, w) => (Raise e, w)
      | (None, w) => for_blocks self rest text_blocks v w
      end
  | OtherBlock :: rest => for_blocks self rest text_blocks v w
  end.

(** The body of the [ResultMessage] branch, up to its [break]. *)
Definition on_result (self : t) (total_cost_usd : option float)
    (v : Translator.locals) (w : world) : res exn Translator.locals * world :=
  let cost :=
    match total_cost_usd with
    | Some c => if float_bool c then Some c else Translator.total_cost v
    | None => Translator.total_cost v
    end in
  let v := {| Translator.assistant_messages := Translator.assistant_messages v;
              Translator.message_count := Translator.message_count v;
              Translator.tool_uses := Translator.tool_uses v;
              Translator.total_cost := cost;
              Translator.accumulated_text := Translator.accumulated_text v |} in
  let called :=
    match cost with
    | Some c =>
        if float_bool c && float_gt0 c
        then notify self (lit "Translation complete (Cost: $" ++ format_6f c ++ lit ")") cost w
        else notify self (lit "Translation complete") cost w
    | None => notify self (lit "Translation complete") cost w
    end in
  match called with
  | (Some e, w) => (Raise e, w)
  | (None, w) => (Ok v, w)
  end.

(** [async for message in client.receive_messages()] *)
Fixpoint receive_loop (self : t) (stream : list item) (v : Translator.locals) (w : world)
    : res exn Translator.locals * world :=
  match stream with
  | [] => (Ok v, w)
  | Error e :: _ => (Raise e, w)
  | Message m :: rest =>
      let v := {| Translator.assistant_messages := Translator.assistant_messages v;
                  Translator.message_count := Translator.message_count v + 1;
                  Translator.tool_uses := Translator.tool_uses v;
                  Translator.total_cost := Translator.total_cost v;
                  Translator.accumulated_text := Translator.accumulated_text v |} in
      match m with
      | AssistantMessage content =>
          match for_blocks self content [] v w with
          | (Raise e, w) => (Raise e, w)
          | (Ok (text_blocks, v), w) =>
              let v :=
                match text_blocks with
                | [] => v
                | _ :: _ =>
                    {| Translator.assistant_messages :=
                         Translator.assistant_messages v ++ [join text_blocks];
                       Translator.message_count := Translator.message_count v;
                       Translator.tool_uses := Translator.tool_uses v;
                       Translator.total_cost := Translator.total_cost v;
                       Translator.accumulated_text := Translator.accumulated_text v |}
                end in
              receive_loop self rest v w
          end
      | ResultMessage total_cost_usd => on_result self total_cost_usd v w
      | UserMessage => receive_loop self rest v w
      | OtherMessage => receive_loop self rest v w
      end
  end.

Section WithAgent.
Variable service : agent.

Definition _translate_async (self : t) (prompt : str) (w : world)
    : res exn str * world :=
  let options := {| opt_model := model self;
                    permission_mode := lit "bypassPermissions" |} in
  let conn := service (opened w) options prompt in
  let w := {| opened := S (opened w); sent := sent w; stdout := stdout w;
              live := live w; config_yaml := config_yaml w |} in
  match connect_error conn with
  | Some e => (Raise e, w)
  | None =>
      let w := {| opened := opened w; sent := sent w ++ [(options, prompt)];
                  stdout := stdout w; live := live w;
                  config_yaml := config_yaml w |} in
      match query_error conn with
      | Some e => (Raise e, w)
      | None =>
          match receive_loop self (incoming conn) Translator.initial_locals w with
          | (Raise e, w) => (Raise e, w)
          | (Ok v, w) =>
              (Ok match last (Translator.assistant_messages v) with
                  | Some m => strip m
                  | None => lit ""
                  end, w)
          end
      end
  end.

Definition translate (self : t) (text target_language : str)
    (source_language : option str) (w : world) : res exn str * world :=
  let source_language :=
    match source_language with
    | None => LanguageDetector.detect text
    | Some s => s
    end in
  let target_lang_name := Translator._get_language_name target_language in
  let source_lang_name := Translator._get_language_name source_language in
  let prompt := Translator.build_prompt source_lang_name target_lang_name text in
  _translate_async self prompt w.

End WithAgent.

(** A callback of [Translator], which returns, seen as a callback here. *)
Definition returning (cb : returning_callback) : callback :=
  fun msg cost w => (None, cb msg cost w).

(** A translator of [Translator] seen as a translator here. *)
Definition of_translator (self : Translator.t) : t :=
  {| model := Translator.model self;
     debug := Translator.debug self;
     quiet := Translator.quiet self;
     progress_callback := option_map returning (Translator.progress_callback self) |}.

(** The callback returns from every call. *)
Definition returns_normally (cb : callback) : Prop :=
  forall msg cost w, fst (cb msg cost w) = None.

(** [e] is an exception some call of the callback raises. *)
Definition raised_by (cb : callback) (e : exn) : Prop :=
  exists msg cost w, fst (cb msg cost w) = Some e.

End Unguarded.
End Unguarded.

Module Demo5.
Import Demo.



(** A callback that shows the message and returns. *)
Definition showing : Unguarded.callback :=
  fun msg _ w => (None, Cli.set_live (Some [msg]) w).

(** A callback that raises on every call. *)
Definition failing : Unguarded.callback :=
  fun _ _ w => (Some (lit "display closed"), w).

Definition with_callback (cb : option Unguarded.callback) : Unguarded.t :=
  {| Unguarded.model := lit "claude-3-5-haiku-20241022";
     Unguarded.debug := false;
     Unguarded.quiet := false;
     Unguarded.progress_callback := cb |}.

End Demo5.

(** * Theorems *)

(** ** Language detection *)

Section DetectFacts.
Import LanguageDetector.

Lemma scan_ranges_spec (code : Z) :
  scan_ranges code japanese_ranges = true <-> japanese_char code.
Proof.
  unfold japanese_char, hiragana, katakana, cjk_unified. cbn.
  repeat match goal with
         | |- context [(?a <=? ?b)] => destruct (Z.leb_spec a b)
         end; cbn; split; intros; try discriminate; try reflexivity; lia.
Qed.

Lemma detect_two_results (text : str) :
  detect text = lit "ja" \/ detect text = lit "en".
Proof.
  induction text as [|c rest IH]; cbn -[scan_ranges japanese_ranges].
  - now right.
  - destruct (scan_ranges c japanese_ranges); [now left | exact IH].
Qed.

Lemma detect_ja_Exists (text : str) :
  detect text = lit "ja" <-> Exists japanese_char text.
Proof.
  induction text as [|c rest IH]; cbn -[scan_ranges japanese_ranges].
  - split; [discriminate | intros E; inversion E].
  - destruct (scan_ranges c japanese_ranges) eqn:Hc.
    + split; [intros _ | reflexivity].
      apply Exists_cons_hd, scan_ranges_spec, Hc.
    + rewrite IH. split; [apply Exists_cons_tl |].
      intros E. inversion E as [? ? Hj | ? ? Hr]; subst; [| exact Hr].
      apply scan_ranges_spec in Hj. congruence.
Qed.

(** ASCII text has no character of the three blocks. *)
Lemma detect_ascii (text : str) :
  Forall (fun c => 0 <= c < 128) text -> detect text = lit "en".
Proof.
  induction 1 as [|c rest Hc _ IH]; [reflexivity |].
  cbn -[scan_ranges japanese_ranges].
  destruct (scan_ranges c japanese_ranges) eqn:Hs; [| exact IH].
  apply scan_ranges_spec in Hs.
  unfold japanese_char, hiragana, katakana, cjk_unified in Hs. lia.
Qed.

End DetectFacts.

(** C1.  [detect] is total with exactly two results: it returns ["ja"] if
    and only if some character of the text lies in the Hiragana, Katakana
    or CJK Unified Ideographs block, and ["en"] if and only if none does. *)
Theorem detect_ja_iff_japanese_char (text : str) :
  (LanguageDetector.detect text = lit "ja" <-> Exists japanese_char text)
  /\ (LanguageDetector.detect text = lit "en" <-> ~ Exists japanese_char text)
  /\ (LanguageDetector.detect text = lit "ja" \/ LanguageDetector.detect text = lit "en").
Proof.
  split; [apply detect_ja_Exists |].
  split; [| apply detect_two_results].
  rewrite <- detect_ja_Exists.
  destruct (detect_two_results text) as [Hja | Hen]; rewrite ?Hja, ?Hen.
  - split; [discriminate | intros Hn; now destruct Hn].
  - split; [intros _; discriminate | reflexivity].
Qed.

(** ** The alias tables *)

Ltac lookup_other :=
  repeat (rewrite lookup_insert_ne; [| congruence]); apply lookup_empty.

(** C6.  [_resolve_model] sends ["haiku"], ["sonnet"] and ["opus"] to their
    fixed identifiers and returns every other string unchanged. *)
Theorem resolve_model_aliases_or_verbatim :
  Translator._resolve_model (lit "haiku") = lit "claude-3-5-haiku-20241022"
  /\ Translator._resolve_model (lit "sonnet") = lit "claude-3-5-sonnet-20241022"
  /\ Translator._resolve_model (lit "opus") = lit "claude-opus-4-20250514"
  /\ forall model : str,
       model <> lit "haiku" -> model <> lit "sonnet" -> model <> lit "opus" ->
       Translator._resolve_model model = model.
Proof.
  repeat split; try (vm_compute; reflexivity).
  intros model H1 H2 H3. unfold Translator._resolve_model.
  replace (Translator.MODEL_ALIASES !! model) with (@None str); [reflexivity |].
  symmetry. unfold Translator.MODEL_ALIASES. lookup_other.
Qed.

Lemma resolve_model_aliases_or_verbatim_witness :
  Translator._resolve_model (lit "unknown-model-x") = lit "unknown-model-x".
Proof.
  apply resolve_model_aliases_or_verbatim; discriminate.
Defined.

(** C8.  [_get_language_name] sends the ten codes of the table to their
    English names and returns every other code as its own name. *)
Theorem language_name_table_or_verbatim :
  Translator._get_language_name (lit "en") = lit "English"
  /\ Translator._get_language_name (lit "ja") = lit "Japanese"
  /\ Translator._get_language_name (lit "zh") = lit "Chinese"
  /\ Translator._get_language_name (lit "ko") = lit "Korean"
  /\ Translator._get_language_name (lit "es") = lit "Spanish"
  /\ Translator._get_language_name (lit "fr") = lit "French"
  /\ Translator._get_language_name (lit "de") = lit "German"
  /\ Translator._get_language_name (lit "it") = lit "Italian"
  /\ Translator._get_language_name (lit "pt") = lit "Portuguese"
  /\ Translator._get_language_name (lit "ru") = lit "Russian"
  /\ forall code : str,
       code ∉ [lit "en"; lit "ja"; lit "zh"; lit "ko"; lit "es"; lit "fr";
               lit "de"; lit "it"; lit "pt"; lit "ru"] ->
       Translator._get_language_name code = code.
Proof.
  repeat split; try (vm_compute; reflexivity).
  intros code Hout. unfold Translator._get_language_name.
  replace (Translator.LANGUAGE_NAMES !! code) with (@None str); [reflexivity |].
  symmetry. unfold Translator.LANGUAGE_NAMES.
  repeat (rewrite lookup_insert_ne;
          [| intros <-; apply Hout; repeat constructor]).
  apply lookup_empty.
Qed.

Lemma language_name_table_or_verbatim_witness :
  Translator._get_language_name (lit "tlh") = lit "tlh".
Proof.
  apply language_name_table_or_verbatim.
  intros Hin. repeat (apply elem_of_cons in Hin as [Hin | Hin]; [discriminate |]).
  inversion Hin.
Defined.

(** ** Target selection and source detection *)

(** C2.  [auto_translate] detects the source, picks English as target when
    the source is the native language and the native language otherwise,
    and hands exactly these to [translate]; with an English text and
    English as native language the target is English. *)
Theorem auto_translate_selects_target `{Runtime}
    (service : agent) (self : Translator.t) (text native : str) (w : world) :
  Translator.auto_translate service self text native w
    = Translator.translate service self text
        (snd (selectTarget text native)) (Some (fst (selectTarget text native))) w
  /\ fst (selectTarget text native) = LanguageDetector.detect text
  /\ snd (selectTarget text native)
       = (if decide (LanguageDetector.detect text = native) then lit "en" else native)
  /\ selectTarget text (LanguageDetector.detect text)
       = (LanguageDetector.detect text, lit "en")
  /\ (LanguageDetector.detect text = lit "en" ->
      Translator.auto_translate service self text (lit "en") w
        = Translator.translate service self text (lit "en") (Some (lit "en")) w).
Proof.
  unfold Translator.auto_translate, selectTarget.
  repeat split.
  - destruct (decide (LanguageDetector.detect text = native)); reflexivity.
  - destruct (decide (LanguageDetector.detect text = native)); reflexivity.
  - destruct (decide (LanguageDetector.detect text = native)); reflexivity.
  - destruct (decide (LanguageDetector.detect text = LanguageDetector.detect text));
      [reflexivity | congruence].
  - intros ->. reflexivity.
Qed.

Lemma auto_translate_selects_target_witness :
  LanguageDetector.detect (lit "Hello, world!") = lit "en"
  /\ Translator.auto_translate (Demo.replying []) Demo.plain
       (lit "Hello, world!") (lit "en") Demo.fresh
     = Translator.translate (Demo.replying []) Demo.plain
         (lit "Hello, world!") (lit "en") (Some (lit "en")) Demo.fresh.
Proof.
  split; [reflexivity |].
  apply (auto_translate_selects_target (Demo.replying []) Demo.plain
           (lit "Hello, world!") (lit "en") Demo.fresh).
  reflexivity.
Defined.

(** C9.  [translate] without a source language is [translate] with the
    detected one. *)
Theorem translate_default_source_is_detected `{Runtime}
    (service : agent) (self : Translator.t) (text target : str) (w : world) :
  Translator.translate service self text target None w
    = Translator.translate service self text target
        (Some (LanguageDetector.detect text)) w
  /\ Translator.translate service self text target None w
    = Translator._translate_async service self
        (Translator.build_prompt
           (Translator._get_language_name (LanguageDetector.detect text))
           (Translator._get_language_name target) text) w.
Proof. split; reflexivity. Qed.

(** ** The event loop *)

Section LoopFacts.
Context `{Runtime}.
Import Translator.

Lemma for_blocks_spec (self : t) (content : list block) :
  forall (tb : list str) (v : locals) (w : world),
    fst (fst (for_blocks self content tb v w)) = tb ++ text_segments content
    /\ assistant_messages (snd (fst (for_blocks self content tb v w)))
         = assistant_messages v.
Proof.
  induction content as [|b rest IH]; intros tb v w.
  - cbn. now rewrite app_nil_r.
  - destruct b as [text | id name |]; cbn [for_blocks].
    + destruct (IH (tb ++ [text])
                  {| assistant_messages := assistant_messages v;
                     message_count := message_count v;
                     tool_uses := tool_uses v;
                     total_cost := total_cost v;
                     accumulated_text := accumulated_text v ++ text |}
                  (notify self
                     (lit "Translating: " ++ preview_of (accumulated_text v ++ text))
                     None w)) as [E1 E2].
      rewrite E1, E2. cbn. now rewrite <- app_assoc.
    + destruct (IH tb
                  {| assistant_messages := assistant_messages v;
                     message_count := message_count v;
                     tool_uses := tool_uses v ++ [name];
                     total_cost := total_cost v;
                     accumulated_text := accumulated_text v |}
                  (notify self (lit "Using tool: " ++ name) None w)) as [E1 E2].
      rewrite E1, E2. now cbn.
    + apply IH.
Qed.

(** The callback and the world it acts on do not reach the locals. *)
Lemma for_blocks_blind (self self' : t) (content : list block) :
  forall (tb : list str) (v : locals) (w w' : world),
    fst (for_blocks self content tb v w) = fst (for_blocks self' content tb v w').
Proof.
  induction content as [|b rest IH]; intros tb v w w'; [reflexivity |].
  destruct b as [text | id name |]; cbn [for_blocks]; apply IH.
Qed.

Lemma on_result_blind (self self' : t) (c : option float) (v : locals) (w w' : world) :
  fst (on_result self c v w) = fst (on_result self' c v w').
Proof. reflexivity. Qed.

Lemma receive_loop_blind (self self' : t) (stream : list item) :
  forall (v : locals) (w w' : world),
    fst (receive_loop self stream v w) = fst (receive_loop self' stream v w').
Proof.
  induction stream as [|i rest IH]; intros v w w'; [reflexivity |].
  destruct i as [m | e]; [| reflexivity].
  destruct m as [content | c | |]; cbn [receive_loop].
  - set (v1 := {| assistant_messages := assistant_messages v;
                  message_count := message_count v + 1;
                  tool_uses := tool_uses v;
                  total_cost := total_cost v;
                  accumulated_text := accumulated_text v |}).
    pose proof (for_blocks_blind self self' content [] v1 w w') as Hb.
    destruct (for_blocks self content [] v1 w) as [[tb v2] w2].
    destruct (for_blocks self' content [] v1 w') as [[tb' v2'] w2'].
    cbn in Hb. injection Hb as -> ->. apply IH.
  - reflexivity.
  - apply IH.
  - apply IH.
Qed.

Lemma turns_cons (m : message) (msgs : list message) :
  turns (m :: msgs)
  = match m with
    | ResultMessage _ => []
    | _ => match turn_of m with
           | Some t => t :: turns msgs
           | None => turns msgs
           end
    end.
Proof. destruct m; reflexivity. Qed.

(** The loop raises the first error the transport raises before a terminal
    result event; otherwise it ends normally and has collected exactly the
    turns of the specification. *)
Lemma receive_loop_result (self : t) (stream : list item) :
  forall (v : locals) (w : world),
    match stream_failure stream with
    | Some e => fst (receive_loop self stream v w) = Raise e
    | None =>
        exists v' : locals,
          fst (receive_loop self stream v w) = Ok v'
          /\ assistant_messages v' = assistant_messages v ++ turns (delivered stream)
    end.
Proof.
  induction stream as [|i rest IH]; intros v w.
  - cbn. exists v. split; [reflexivity |]. now rewrite app_nil_r.
  - destruct i as [m | e]; [| reflexivity].
    cbn [delivered]. rewrite turns_cons.
    destruct m as [content | c | |]; cbn [stream_failure receive_loop].
    + set (v1 := {| assistant_messages := assistant_messages v;
                    message_count := message_count v + 1;
                    tool_uses := tool_uses v;
                    total_cost := total_cost v;
                    accumulated_text := accumulated_text v |}).
      destruct (for_blocks_spec self content [] v1 w) as [E1 E2].
      destruct (for_blocks self content [] v1 w) as [[tb v2] w2].
      cbn in E1, E2. subst tb. cbn [turn_of].
      destruct (text_segments content) as [|seg segs].
      * specialize (IH v2 w2). destruct (stream_failure rest); [exact IH |].
        destruct IH as (v' & Hv' & Hm). exists v'.
        split; [exact Hv' |]. now rewrite Hm, E2.
      * match goal with
        | |- context [receive_loop self rest ?v3 w2] => specialize (IH v3 w2)
        end.
        destruct (stream_failure rest); [exact IH |].
        destruct IH as (v' & Hv' & Hm). exists v'. split; [exact Hv' |].
        rewrite Hm. cbn. rewrite E2. cbn. now rewrite <- app_assoc.
    + eexists. split; [reflexivity |]. cbn. now rewrite app_nil_r.
    + match goal with
      | |- context [receive_loop self rest ?v3 w] => exact (IH v3 w)
      end.
    + match goal with
      | |- context [receive_loop self rest ?v3 w] => exact (IH v3 w)
      end.
Qed.

Lemma stream_failure_messages (msgs : list message) :
  stream_failure (List.map Message msgs) = None.
Proof.
  induction msgs as [|m rest IH]; [reflexivity |]. now destruct m.
Qed.

Lemma delivered_messages (msgs : list message) :
  delivered (List.map Message msgs) = msgs.
Proof.
  induction msgs as [|m rest IH]; [reflexivity |]. cbn. now rewrite IH.
Qed.

(** The result of [_translate_async] is a function of the one session it
    opens: neither the callback, nor the flags, nor the rest of the world,
    nor any other session of the agent reaches it. *)
Lemma translate_async_blind (service service' : agent) (self self' : t)
    (prompt prompt' : str) (w w' : world) :
  session_for service self prompt w = session_for service' self' prompt' w' ->
  fst (_translate_async service self prompt w)
  = fst (_translate_async service' self' prompt' w').
Proof.
  unfold session_for, _translate_async. intros ->.
  destruct (connect_error _); [reflexivity |].
  destruct (query_error _); [reflexivity |].
  match goal with
  | |- fst (match receive_loop self ?s ?v ?w1 with _ => _ end)
       = fst (match receive_loop self' ?s ?v ?w2 with _ => _ end) =>
      pose proof (receive_loop_blind self self' s v w1 w2) as Hb;
      destruct (receive_loop self s v w1) as [[v1|e1] u1];
      destruct (receive_loop self' s v w2) as [[v2|e2] u2]
  end; cbn in Hb; try discriminate; now inversion Hb.
Qed.

(** What [_translate_async] returns, in the terms of the specification. *)
Lemma translate_async_result (service : agent) (self : t) (prompt : str) (w : world) :
  fst (_translate_async service self prompt w)
  = match transport_failure (session_for service self prompt w) with
    | Some e => Raise e
    | None => Ok (final_turn (delivered (incoming (session_for service self prompt w))))
    end.
Proof.
  unfold transport_failure, session_for, _translate_async, final_turn.
  destruct (connect_error _); [reflexivity |].
  destruct (query_error _); [reflexivity |].
  match goal with
  | |- context [receive_loop self ?s ?v ?w1] =>
      pose proof (receive_loop_result self s v w1) as Hr;
      destruct (receive_loop self s v w1) as [[v1|e1] u1]
  end; destruct (stream_failure _); cbn in Hr |- *.
  - discriminate.
  - destruct Hr as (v' & [= <-] & Hm). now rewrite Hm.
  - now injection Hr as ->.
  - destruct Hr as (v' & Hv' & _). discriminate.
Qed.

Lemma translate_async_streaming (service : agent) (self : t) (prompt : str)
    (w : world) (msgs : list message) :
  session_for service self prompt w = streaming msgs ->
  fst (_translate_async service self prompt w) = Ok (final_turn msgs).
Proof.
  intros Hs. rewrite translate_async_result, Hs.
  unfold transport_failure. cbn.
  now rewrite stream_failure_messages, delivered_messages.
Qed.

End LoopFacts.

Section LoopCorollaries.
Context `{Runtime}.

(** What comes after the terminal result event is never read. *)
Lemma final_turn_stops_at_result (before after : list message) (c : option float) :
  final_turn (before ++ ResultMessage c :: after) = final_turn (before ++ [ResultMessage c]).
Proof.
  assert (events_until_result (before ++ ResultMessage c :: after)
          = events_until_result (before ++ [ResultMessage c])) as Hcut.
  { induction before as [|m rest IH]; [reflexivity |].
    destruct m; cbn; try reflexivity; now rewrite IH. }
  unfold final_turn, turns. now rewrite Hcut.
Qed.

(** The same for [translate], whose prompt is built inside. *)
Lemma translate_returns_last_turn (service : agent) (self : Translator.t)
    (text target : str) (source : option str) (w : world) (msgs : list message) :
  (forall opts prompt, service (opened w) opts prompt = streaming msgs) ->
  fst (Translator.translate service self text target source w) = Ok (final_turn msgs).
Proof.
  intros Hs. unfold Translator.translate.
  apply translate_async_streaming. unfold session_for. apply Hs.
Qed.

End LoopCorollaries.

(** A whole run of [cctr "Hello"] on a fresh machine: the default
    configuration is written, one request is made, and the trimmed last
    turn is the only line printed. *)
Example main_prints_the_translation :
  let out :=
    Cli.main Demo.os Demo.bonjour Demo.hello Demo.fresh in
  fst out = Ok 0 /\ stdout (snd out) = [lit "Bonjour"]
  /\ opened (snd out) = 1%nat /\ live (snd out) = None.
Proof. vm_compute. repeat split. Qed.

Example auto_translate_examples :
  selectTarget (lit "Hello") (lit "ja") = (lit "en", lit "ja")
  /\ selectTarget Demo.konnichiwa (lit "ja") = (lit "ja", lit "en")
  /\ selectTarget (lit "Hello, world!") (lit "en") = (lit "en", lit "en").
Proof. vm_compute. repeat split. Qed.



(** With callbacks that return, the string [translate] returns does not
    depend on the callback: with any such callback or none, whatever it does
    to the world, and whatever the [quiet] and [debug] flags, the result on
    the same stream is the same. *)
Theorem progress_callback_is_observational `{Runtime}
    (service : agent) (model : str) (debug debug' quiet quiet' : bool)
    (cb : callback) (cb' : option callback)
    (text target : str) (source : option str) (w : world) :
  fst (Translator.translate service
         {| Translator.model := model; Translator.debug := debug;
            Translator.quiet := quiet; Translator.progress_callback := Some cb |}
         text target source w)
  = fst (Translator.translate service
           {| Translator.model := model; Translator.debug := debug';
              Translator.quiet := quiet'; Translator.progress_callback := None |}
           text target source w)
  /\ fst (Translator.translate service
            {| Translator.model := model; Translator.debug := debug;
               Translator.quiet := quiet; Translator.progress_callback := Some cb |}
            text target source w)
     = fst (Translator.translate service
              {| Translator.model := model; Translator.debug := debug';
                 Translator.quiet := quiet'; Translator.progress_callback := cb' |}
              text target source w).
Proof.
  split; unfold Translator.translate; apply translate_async_blind; reflexivity.
Qed.

(** ** What a request leaves of the world *)

Section FrameFacts.
Context `{Runtime}.
Import Translator.
Context {A : Type} (f : world -> A).

Lemma notify_keeps (self : t) (msg : str) (cost : option float) (w : world) :
  keeps f self -> f (notify self msg cost w) = f w.
Proof.
  intros Hk. unfold notify.
  destruct (progress_callback self) as [cb|] eqn:Hcb; [| reflexivity].
  destruct (negb (quiet self)); [| reflexivity].
  now apply Hk.
Qed.

Lemma for_blocks_keeps (self : t) (content : list block) :
  keeps f self ->
  forall (tb : list str) (v : locals) (w : world),
    f (snd (for_blocks self content tb v w)) = f w.
Proof.
  intros Hk. induction content as [|b rest IH]; intros tb v w; [reflexivity |].
  destruct b as [text | id name |]; cbn [for_blocks];
    rewrite IH; try reflexivity; now apply notify_keeps.
Qed.

Lemma on_result_keeps (self : t) (c : option float) (v : locals) (w : world) :
  keeps f self -> f (snd (on_result self c v w)) = f w.
Proof.
  intros Hk. unfold on_result. cbn [snd].
  repeat match goal with
         | |- context [match ?x with _ => _ end] => destruct x
         end; now apply notify_keeps.
Qed.

Lemma receive_loop_keeps (self : t) (stream : list item) :
  keeps f self ->
  forall (v : locals) (w : world), f (snd (receive_loop self stream v w)) = f w.
Proof.
  intros Hk. induction stream as [|i rest IH]; intros v w; [reflexivity |].
  destruct i as [m | e]; [| reflexivity].
  destruct m as [content | c | |]; cbn [receive_loop].
  - match goal with
    | |- context [for_blocks self content [] ?v1 w] =>
        pose proof (for_blocks_keeps self content Hk [] v1 w) as Hb;
        destruct (for_blocks self content [] v1 w) as [[tb v2] w2]
    end.
    cbn in Hb. rewrite IH. exact Hb.
  - pose proof (on_result_keeps self c
                  {| assistant_messages := assistant_messages v;
                     message_count := message_count v + 1;
                     tool_uses := tool_uses v;
                     total_cost := total_cost v;
                     accumulated_text := accumulated_text v |} w Hk) as Hr.
    destruct (on_result self c _ w) as [v2 w2]. exact Hr.
  - apply IH.
  - apply IH.
Qed.

End FrameFacts.

Section RequestFacts.
Context `{Runtime}.
Import Translator.

(** One call opens one session, whatever its outcome. *)
Lemma translate_async_opens_one (service : agent) (self : t) (prompt : str) (w : world) :
  keeps opened self ->
  opened (snd (_translate_async service self prompt w)) = S (opened w).
Proof.
  intros Hk. unfold _translate_async.
  destruct (connect_error _); [reflexivity |].
  destruct (query_error _); [reflexivity |].
  match goal with
  | |- context [receive_loop self ?s ?v ?w1] =>
      pose proof (receive_loop_keeps opened self s Hk v w1) as Hl;
      destruct (receive_loop self s v w1) as [[v1|e1] u1]
  end; exact Hl.
Qed.

Lemma translate_async_prints_nothing (service : agent) (self : t) (prompt : str) (w : world) :
  keeps stdout self ->
  stdout (snd (_translate_async service self prompt w)) = stdout w.
Proof.
  intros Hk. unfold _translate_async.
  destruct (connect_error _); [reflexivity |].
  destruct (query_error _); [reflexivity |].
  match goal with
  | |- context [receive_loop self ?s ?v ?w1] =>
      pose proof (receive_loop_keeps stdout self s Hk v w1) as Hl;
      destruct (receive_loop self s v w1) as [[v1|e1] u1]
  end; exact Hl.
Qed.

Lemma translate_async_raises (service : agent) (self : t) (prompt : str)
    (w : world) (e : exn) :
  (forall opts p, transport_failure (service (opened w) opts p) = Some e) ->
  fst (_translate_async service self prompt w) = Raise e.
Proof.
  intros Hfail. rewrite translate_async_result.
  unfold session_for. now rewrite Hfail.
Qed.

End RequestFacts.

(** ** The command line around a request *)

Section CliFacts.
Context `{Runtime}.
Variable os : environ.
Variable service : agent.

Lemma config_init_frame (w : world) :
  opened (snd (Config.__init__ os w)) = opened w
  /\ stdout (snd (Config.__init__ os w)) = stdout w.
Proof.
  unfold Config.__init__, Config._load_config.
  destruct (config_yaml w) as [text|]; [| split; reflexivity].
  destruct (safe_load text); split; reflexivity.
Qed.

Lemma init_keeps {A : Type} (f : world -> A) (model : str) (d q : bool)
    (cb : option callback) :
  (forall c msg cost w, cb = Some c -> f (c msg cost w) = f w) ->
  keeps f (Translator.__init__ model d q cb).
Proof. intros Hc c msg cost w Hsome. now apply Hc. Qed.

Lemma request_fails (tr : Translator.t) (a : Cli.args) (config : Config.t)
    (text : str) (w : world) (e : exn) :
  (forall opts p, transport_failure (service (opened w) opts p) = Some e) ->
  keeps opened tr -> keeps stdout tr ->
  fst (Cli.request os service tr a config text w) = Raise e
  /\ opened (snd (Cli.request os service tr a config text w)) = S (opened w)
  /\ stdout (snd (Cli.request os service tr a config text w)) = stdout w.
Proof.
  intros Hfail Ko Ks. unfold Cli.request, Translator.auto_translate, Translator.translate.
  destruct (truthy (Cli.target_language a));
    (split; [now apply translate_async_raises |
             split; [now apply translate_async_opens_one |
                     now apply translate_async_prints_nothing]]).
Qed.

Lemma main_on_failure (a : Cli.args) (w : world) (e : exn) :
  (forall opts p, transport_failure (service (opened w) opts p) = Some e) ->
  opened (snd (Cli.main os service a w)) = opened w
  \/ (fst (Cli.main os service a w) = Ok 1
      /\ stdout (snd (Cli.main os service a w)) = stdout w
      /\ opened (snd (Cli.main os service a w)) = S (opened w)).
Proof.
  intros Hfail. unfold Cli.main.
  destruct (Cli.version a); [now left |].
  destruct (config_init_frame w) as [Ho Hs].
  destruct (Config.__init__ os w) as [[config|e0] w1]; cbn [fst snd] in *; [| now left].
  destruct (Cli.show_config_flag a); [now left |].
  destruct (truthy (Cli.set_native_lang a)); [now left |].
  destruct (truthy (Cli.set_default_model a)); [now left |].
  match goal with
  | |- context [match ?input with None => _ | Some _ => _ end] =>
      destruct input as [[|c s]|]
  end; [now left | | now left].
  right. rewrite <- Ho in Hfail. rewrite <- Ho, <- Hs.
  destruct (Cli.quiet a).
  - match goal with
    | |- context [Cli.request os service ?tr a config ?txt w1] =>
        destruct (request_fails tr a config txt w1 e Hfail) as (Hr & Hop & Hst);
        [apply init_keeps; discriminate | apply init_keeps; discriminate |];
        destruct (Cli.request os service tr a config txt w1) as [[r|e1] w2]
    end; cbn [fst snd] in *; [discriminate | auto].
  - match goal with
    | |- context [Cli.request os service ?tr a config ?txt ?w0] =>
        destruct (request_fails tr a config txt w0 e Hfail) as (Hr & Hop & Hst);
        [apply init_keeps; intros ? ? ? ? [= <-]; reflexivity
        |apply init_keeps; intros ? ? ? ? [= <-]; reflexivity |];
        destruct (Cli.request os service tr a config txt w0) as [[r|e1] w2]
    end; cbn [fst snd] in *; [discriminate | auto].
Qed.

End CliFacts.

(** C4.  When the transport raises [e] during the request, [translate] and
    [auto_translate] raise that same [e] and return no string; a translator
    whose callback does not itself open sessions has opened exactly one, so
    nothing is tried again; and [main], if it made a request at all, exits
    with code 1 having printed nothing on the standard output. *)
Theorem transport_error_propagates `{Runtime}
    (service : agent) (w : world) (e : exn) :
  (forall opts prompt, transport_failure (service (opened w) opts prompt) = Some e) ->
  (forall self text target source,
     fst (Translator.translate service self text target source w) = Raise e
     /\ (keeps opened self ->
         opened (snd (Translator.translate service self text target source w))
         = S (opened w)))
  /\ (forall self text native,
        fst (Translator.auto_translate service self text native w) = Raise e)
  /\ (forall os a,
        opened (snd (Cli.main os service a w)) = opened w
        \/ (fst (Cli.main os service a w) = Ok 1
            /\ stdout (snd (Cli.main os service a w)) = stdout w
            /\ opened (snd (Cli.main os service a w)) = S (opened w))).
Proof.
  intros Hfail. split; [| split].
  - intros self text target source. split.
    + now apply translate_async_raises.
    + intros Hk. now apply translate_async_opens_one.
  - intros self text native. now apply translate_async_raises.
  - intros os a. now apply main_on_failure with (e := e).
Qed.

Lemma transport_error_propagates_witness :
  fst (Translator.translate Demo.broken Demo.plain (lit "Hello") (lit "fr") None Demo.fresh)
    = Raise (lit "connection reset")
  /\ fst (Cli.main Demo.os Demo.broken Demo.hello Demo.fresh) = Ok 1
  /\ stdout (snd (Cli.main Demo.os Demo.broken Demo.hello Demo.fresh)) = [].
Proof.
  destruct (transport_error_propagates Demo.broken Demo.fresh (lit "connection reset")
              (fun _ _ => eq_refl)) as (Ht & _ & Hm).
  split; [apply Ht |].
  destruct (Hm Demo.os Demo.hello) as [Hnone | (Hcode & Hout & _)].
  - vm_compute in Hnone. discriminate.
  - split; [exact Hcode | exact Hout].
Defined.

(** ** The configuration store *)

Section ConfigFacts.
Context `{Runtime}.
Hypothesis yaml : yaml_round_trip.


End ConfigFacts.


Lemma demo_yaml_round_trip : @yaml_round_trip Demo.runtime.
Proof.
  intros d. cbn. unfold Demo.load, Demo.dump. now rewrite decode_encode.
Qed.




(** * Further properties of the code *)

(** ** Language detection, continued *)

Section DetectMore.
Import LanguageDetector.

(** X1.  Detection looks at characters one by one: a text made of two
    parts is Japanese exactly when one of the parts is. *)
Theorem detect_app (a b : str) :
  detect (a ++ b) = lit "ja" <-> detect a = lit "ja" \/ detect b = lit "ja".
Proof. rewrite !detect_ja_Exists. apply Exists_app. Qed.

(** X2.  The order of the characters is irrelevant to detection. *)
Theorem detect_Permutation (a b : str) :
  a ≡ₚ b -> detect a = detect b.
Proof.
  intros Hp.
  assert (detect a = lit "ja" <-> detect b = lit "ja") as Hiff.
  { rewrite !detect_ja_Exists, !Exists_exists.
    split; intros (c & Hin & Hj); exists c; (split; [| exact Hj]).
    - now rewrite <- Hp.
    - now rewrite Hp. }
  destruct (detect_two_results a) as [Ha | Ha], (detect_two_results b) as [Hb | Hb];
    try congruence.
  - apply Hiff in Ha. rewrite Hb in Ha. discriminate.
  - apply Hiff in Hb. rewrite Ha in Hb. discriminate.
Qed.

Lemma detect_Permutation_witness :
  detect [0x3042; 0x41; 0x42] = detect [0x41; 0x42; 0x3042].
Proof.
  apply detect_Permutation.
  change [0x3042; 0x41; 0x42] with ([0x3042] ++ [0x41; 0x42]).
  change [0x41; 0x42; 0x3042] with ([0x41; 0x42] ++ [0x3042]).
  apply Permutation_app_comm.
Defined.

(** X3.  The detector knows three blocks only: text written wholly in CJK
    symbols and punctuation (U+3000 to U+303F), CJK Extension A (U+3400 to
    U+4DBF), Hangul syllables (U+AC00 to U+D7A3) or half-width and
    full-width forms (U+FF00 to U+FFEF, half-width katakana included) is
    classified as English. *)
Theorem detect_other_east_asian_is_en (text : str) :
  Forall (fun c => 0x3000 <= c <= 0x303F \/ 0x3400 <= c <= 0x4DBF
                   \/ 0xAC00 <= c <= 0xD7A3 \/ 0xFF00 <= c <= 0xFFEF) text ->
  detect text = lit "en".
Proof.
  induction 1 as [|c rest Hc _ IH]; [reflexivity |].
  cbn -[scan_ranges japanese_ranges].
  destruct (scan_ranges c japanese_ranges) eqn:Hs; [| exact IH].
  apply scan_ranges_spec in Hs.
  unfold japanese_char, hiragana, katakana, cjk_unified in Hs. lia.
Qed.

(** Half-width katakana, then a Japanese full stop. *)
Lemma detect_other_east_asian_is_en_witness :
  detect [0xFF8A; 0xFF9B; 0xFF70; 0x3002] = lit "en".
Proof.
  apply detect_other_east_asian_is_en.
  repeat constructor; lia.
Defined.

End DetectMore.

(** ** Trimming *)

Section StripFacts.

Lemma lstrip_nonspace (c : Z) (t : str) :
  isspace c = false -> lstrip (c :: t) = c :: t.
Proof. intros Hc. cbn [lstrip]. now rewrite Hc. Qed.

Lemma lstrip_cases (s : str) :
  lstrip s = [] \/ exists c t, lstrip s = c :: t /\ isspace c = false.
Proof.
  induction s as [|c s IH]; [now left |].
  cbn [lstrip]. destruct (isspace c) eqn:Hc; [exact IH |].
  right. now exists c, s.
Qed.

Lemma lstrip_idem (s : str) : lstrip (lstrip s) = lstrip s.
Proof.
  destruct (lstrip_cases s) as [-> | (c & t & -> & Hc)]; [reflexivity |].
  now apply lstrip_nonspace.
Qed.

Lemma lstrip_spaces (s : str) :
  Forall (fun c => isspace c = true) s -> lstrip s = [].
Proof.
  induction 1 as [|c s Hc _ IH]; [reflexivity |]. cbn [lstrip]. now rewrite Hc.
Qed.

Lemma lstrip_snoc (l : str) (c : Z) :
  isspace c = false -> exists l', lstrip (l ++ [c]) = l' ++ [c].
Proof.
  intros Hc. induction l as [|d l IH].
  - exists []. cbn. now rewrite Hc.
  - cbn [app lstrip]. destruct (isspace d); [exact IH |].
    now exists (d :: l).
Qed.

Lemma rstrip_cons (c : Z) (t : str) :
  isspace c = false -> exists t', rstrip (c :: t) = c :: t'.
Proof.
  intros Hc. unfold rstrip. cbn [rev].
  destruct (lstrip_snoc (rev t) c Hc) as [l' ->].
  exists (rev l'). now rewrite rev_app_distr.
Qed.

Lemma rstrip_idem (s : str) : rstrip (rstrip s) = rstrip s.
Proof. unfold rstrip. now rewrite rev_involutive, lstrip_idem. Qed.

Lemma rstrip_last (s : str) (c : Z) :
  last (rstrip s) = Some c -> isspace c = false.
Proof.
  unfold rstrip.
  destruct (lstrip_cases (rev s)) as [-> | (d & t & -> & Hd)]; [discriminate |].
  cbn [rev]. rewrite last_snoc. now intros [= <-].
Qed.

Lemma strip_idem (s : str) : strip (strip s) = strip s.
Proof.
  unfold strip.
  destruct (lstrip_cases s) as [-> | (c & t & -> & Hc)]; [reflexivity |].
  destruct (rstrip_cons c t Hc) as [t' Et]. rewrite Et.
  rewrite (lstrip_nonspace c t' Hc), <- Et. apply rstrip_idem.
Qed.

Lemma strip_head (s : str) (c : Z) :
  head (strip s) = Some c -> isspace c = false.
Proof.
  unfold strip.
  destruct (lstrip_cases s) as [-> | (d & t & -> & Hd)]; [discriminate |].
  destruct (rstrip_cons d t Hd) as [t' ->]. now intros [= <-].
Qed.

Lemma strip_spaces (s : str) :
  Forall (fun c => isspace c = true) s -> strip s = [].
Proof. intros Hs. unfold strip. now rewrite (lstrip_spaces s Hs). Qed.

End StripFacts.

(** ** What a translation looks like *)

(** X4.  The preview handed to the progress callback is never longer than
    50 characters, and its first 47 characters are those of the trimmed
    text received so far. *)
Theorem preview_at_most_50 (accumulated : str) :
  (length (Translator.preview_of accumulated) <= 50)%nat
  /\ take 47 (Translator.preview_of accumulated) = take 47 (strip accumulated).
Proof.
  unfold Translator.preview_of, len, prefix.
  destruct (Z.ltb_spec 50 (Z.of_nat (length (strip accumulated)))) as [Hlong | Hshort].
  - split.
    + rewrite length_app, length_take.
      change (length (lit "...")) with 3%nat. lia.
    + rewrite take_app_le by (rewrite length_take; lia).
      rewrite take_take. f_equal.
  - split; [lia | reflexivity].
Qed.

(** X5.  A string returned by [translate] is trimmed: stripping it again
    changes nothing, and neither its first nor its last character is
    white space. *)
Theorem translation_is_trimmed `{Runtime}
    (service : agent) (self : Translator.t) (text target : str)
    (source : option str) (w : world) (r : str) :
  fst (Translator.translate service self text target source w) = Ok r ->
  strip r = r
  /\ (forall c, head r = Some c -> isspace c = false)
  /\ (forall c, last r = Some c -> isspace c = false).
Proof.
  unfold Translator.translate. rewrite translate_async_result.
  destruct (transport_failure _); [discriminate |].
  intros [= <-]. unfold final_turn.
  destruct (last (turns _)) as [t|].
  - split; [apply strip_idem |]. split; intros c.
    + apply strip_head.
    + unfold strip. apply rstrip_last.
  - split; [reflexivity |]. split; intros c; discriminate.
Qed.

Lemma translation_is_trimmed_witness :
  fst (Translator.translate Demo.bonjour Demo.plain (lit "Hello") (lit "fr") None Demo.fresh)
    = Ok (lit "Bonjour")
  /\ strip (lit "Bonjour") = lit "Bonjour".
Proof.
  split; [reflexivity |].
  apply (translation_is_trimmed Demo.bonjour Demo.plain (lit "Hello") (lit "fr")
           None Demo.fresh (lit "Bonjour") eq_refl).
Defined.

Section ResultFacts.
Context `{Runtime}.


End ResultFacts.




(** ** The callback and the request log *)

Section CallbackFacts.
Context `{Runtime}.
Import Translator.

Lemma for_blocks_silent (self self' : t) (content : list block) :
  silent self -> silent self' ->
  forall tb v w, for_blocks self content tb v w = for_blocks self' content tb v w.
Proof.
  intros Hs Hs'. induction content as [|b rest IH]; intros tb v w; [reflexivity |].
  destruct b; cbn [for_blocks]; rewrite ?Hs, ?Hs'; apply IH.
Qed.

Lemma receive_loop_silent (self self' : t) (stream : list item) :
  silent self -> silent self' ->
  forall v w, receive_loop self stream v w = receive_loop self' stream v w.
Proof.
  intros Hs Hs'. induction stream as [|i rest IH]; intros v w; [reflexivity |].
  destruct i as [m | e]; [| reflexivity].
  destruct m as [content | c | |]; cbn [receive_loop].
  - rewrite (for_blocks_silent self self' content Hs Hs').
    destruct (for_blocks self' content [] _ w) as [[tb v2] w2]. apply IH.
  - unfold on_result.
    repeat match goal with
           | |- context [match ?x with Some _ => _ | None => _ end] => destruct x
           | |- context [if ?x then _ else _] => destruct x
           end; now rewrite Hs, Hs'.
  - apply IH.
  - apply IH.
Qed.

Lemma translate_async_silent (service : agent) (self self' : t) (prompt : str) (w : world) :
  model self = model self' -> silent self -> silent self' ->
  _translate_async service self prompt w = _translate_async service self' prompt w.
Proof.
  intros Hm Hs Hs'. unfold _translate_async. rewrite Hm.
  destruct (connect_error _); [reflexivity |].
  destruct (query_error _); [reflexivity |].
  now rewrite (receive_loop_silent self self' _ Hs Hs').
Qed.

(** What [_translate_async] itself changes in the world is the count of
    sessions and the log of queries. *)
Lemma translate_async_keeps {A : Type} (f : world -> A)
    (service : agent) (self : t) (prompt : str) (w : world) :
  (forall o s u, f {| opened := o; sent := s; stdout := stdout u; live := live u;
                      config_yaml := config_yaml u |} = f u) ->
  keeps f self ->
  f (snd (_translate_async service self prompt w)) = f w.
Proof.
  intros Hf Hk. unfold _translate_async.
  destruct (connect_error _); [exact (Hf _ _ w) |].
  destruct (query_error _); [cbn; exact (Hf _ _ w) |].
  match goal with
  | |- context [receive_loop self ?s ?v ?w1] =>
      pose proof (receive_loop_keeps f self s Hk v w1) as Hl;
      destruct (receive_loop self s v w1) as [[v1|e1] u1]
  end; cbn [snd] in *; rewrite Hl; cbn; exact (Hf _ _ w).
Qed.

Lemma translate_async_sent (service : agent) (self : t) (prompt : str) (w : world) :
  keeps sent self ->
  sent (snd (_translate_async service self prompt w))
  = match connect_error (session_for service self prompt w) with
    | Some _ => sent w
    | None => sent w ++ [({| opt_model := model self;
                            permission_mode := lit "bypassPermissions" |}, prompt)]
    end.
Proof.
  intros Hk. unfold _translate_async, session_for.
  destruct (connect_error _); [reflexivity |].
  destruct (query_error _); [reflexivity |].
  match goal with
  | |- context [receive_loop self ?s ?v ?w1] =>
      pose proof (receive_loop_keeps sent self s Hk v w1) as Hl;
      destruct (receive_loop self s v w1) as [[v1|e1] u1]
  end; exact Hl.
Qed.

Lemma recording_loop (m : str) (d : bool) (msgs : list message) :
  forall v w,
    length (stdout (snd (receive_loop
                           {| model := m; debug := d; quiet := false;
                              progress_callback := Some recording |}
                           (List.map Message msgs) v w)))
    = (length (stdout w) + progress_calls msgs)%nat.
Proof.
  set (self := {| model := m; debug := d; quiet := false;
                  progress_callback := Some recording |}).
  assert (forall content tb v w,
             length (stdout (snd (for_blocks self content tb v w)))
             = (length (stdout w) + reported content)%nat) as Hblocks.
  { induction content as [|b rest IH]; intros tb v w; [cbn; lia |].
    destruct b; cbn [for_blocks reported]; rewrite IH; cbn; rewrite ?length_app; cbn; lia. }
  induction msgs as [|msg rest IH]; intros v w; [cbn; lia |].
  destruct msg as [content | c | |]; cbn [List.map receive_loop progress_calls].
  - match goal with
    | |- context [for_blocks self content [] ?v1 w] =>
        pose proof (Hblocks content [] v1 w) as Hb;
        destruct (for_blocks self content [] v1 w) as [[tb v2] w2]
    end.
    cbn [snd] in Hb. rewrite IH, Hb. lia.
  - unfold on_result. cbn [snd].
    repeat match goal with
           | |- context [match ?x with _ => _ end] => destruct x
           end; cbn; rewrite length_app; cbn; lia.
  - apply IH.
  - apply IH.
Qed.

End CallbackFacts.

(** X8.  A quiet translator never calls its callback: with [quiet] set,
    [translate] with a callback and without one return the same result and
    leave the same world. *)
Theorem quiet_never_calls_back `{Runtime}
    (service : agent) (model : str) (debug debug' : bool) (cb : callback)
    (text target : str) (source : option str) (w : world) :
  Translator.translate service
    {| Translator.model := model; Translator.debug := debug;
       Translator.quiet := true; Translator.progress_callback := Some cb |}
    text target source w
  = Translator.translate service
      {| Translator.model := model; Translator.debug := debug';
         Translator.quiet := true; Translator.progress_callback := None |}
      text target source w.
Proof.
  unfold Translator.translate.
  apply translate_async_silent; [reflexivity | |]; intros msg cost u; reflexivity.
Qed.

(** X9.  One call of [translate] issues at most one query: none when the
    connection fails, otherwise exactly one, carrying the resolved model,
    the permission mode [bypassPermissions] and the prompt built from the
    names of the two languages and the text. *)
Theorem translate_issues_one_query `{Runtime}
    (service : agent) (self : Translator.t) (text target : str)
    (source : option str) (w : world) :
  keeps sent self ->
  let prompt :=
    Translator.build_prompt
      (Translator._get_language_name (default (LanguageDetector.detect text) source))
      (Translator._get_language_name target) text in
  sent (snd (Translator.translate service self text target source w))
  = match connect_error (session_for service self prompt w) with
    | Some _ => sent w
    | None => sent w ++ [({| opt_model := Translator.model self;
                            permission_mode := lit "bypassPermissions" |}, prompt)]
    end.
Proof.
  intros Hk prompt. unfold Translator.translate.
  destruct source as [s|]; apply translate_async_sent; exact Hk.
Qed.

Lemma translate_issues_one_query_witness :
  sent (snd (Translator.translate Demo.broken Demo.plain (lit "Hello") (lit "fr")
               None Demo.fresh))
  = [({| opt_model := lit "claude-3-5-haiku-20241022";
         permission_mode := lit "bypassPermissions" |},
      Translator.build_prompt (lit "English") (lit "French") (lit "Hello"))].
Proof.
  apply (translate_issues_one_query Demo.broken Demo.plain (lit "Hello") (lit "fr")
           None Demo.fresh).
  intros cb msg cost u Hcb. discriminate.
Defined.

(** X10.  A callback is called once for every text block and every
    tool-use block that arrives before the first result event, and once
    more when that event arrives. *)
Theorem callback_called_once_per_block `{Runtime}
    (model : str) (debug : bool) (prompt : str) (w : world) (msgs : list message) :
  length (stdout (snd (Translator._translate_async
                         (answering (List.map Message msgs))
                         {| Translator.model := model; Translator.debug := debug;
                            Translator.quiet := false;
                            Translator.progress_callback := Some recording |}
                         prompt w)))
  = (length (stdout w) + progress_calls msgs)%nat.
Proof.
  unfold Translator._translate_async, answering. cbn [connect_error query_error incoming].
  match goal with
  | |- context [Translator.receive_loop ?self ?s ?v ?w1] =>
      pose proof (recording_loop model debug msgs v w1) as Hl;
      destruct (Translator.receive_loop self s v w1) as [[v1|e1] u1]
  end; exact Hl.
Qed.

(** ** Locals of the loop *)

Section LocalsFacts.
Context `{Runtime}.
Import Translator.

Lemma for_blocks_accumulates (self : t) (content : list block) :
  forall tb v w,
    accumulated_text (snd (fst (for_blocks self content tb v w)))
    = accumulated_text v ++ concat (text_segments content).
Proof.
  induction content as [|b rest IH]; intros tb v w.
  - cbn. now rewrite app_nil_r.
  - destruct b; cbn [for_blocks]; rewrite IH; cbn; now rewrite ?app_assoc.
Qed.

End LocalsFacts.

(** X11.  The loop keeps the text it previews in step with the turns it
    collects: the accumulated text is always the concatenation of all turns
    collected so far, not of the current one alone. *)
Theorem accumulated_text_is_all_turns `{Runtime}
    (self : Translator.t) (stream : list item) :
  forall (v v' : Translator.locals) (w : world),
    Translator.accumulated_text v = concat (Translator.assistant_messages v) ->
    fst (Translator.receive_loop self stream v w) = Ok v' ->
    Translator.accumulated_text v' = concat (Translator.assistant_messages v').
Proof.
  induction stream as [|i rest IH]; intros v v' w Hinv Hrun.
  - cbn in Hrun. now injection Hrun as <-.
  - destruct i as [m | e]; [| discriminate].
    destruct m as [content | c | |]; cbn [Translator.receive_loop] in Hrun.
    + match type of Hrun with
      | context [Translator.for_blocks self content [] ?v1 w] =>
          pose proof (for_blocks_spec self content [] v1 w) as [E1 E2];
          pose proof (for_blocks_accumulates self content [] v1 w) as E3;
          destruct (Translator.for_blocks self content [] v1 w) as [[tb v2] w2]
      end.
      cbn in E1, E2, E3. subst tb.
      destruct (text_segments content) as [|seg segs].
      * apply (IH v2 v' w2); [| exact Hrun].
        rewrite E3, E2, Hinv. cbn. now rewrite app_nil_r.
      * eapply IH; [| exact Hrun].
        cbn. rewrite E3, E2, Hinv, concat_app. cbn. unfold join.
        now rewrite app_nil_r.
    + unfold Translator.on_result in Hrun. cbn in Hrun. now injection Hrun as <-.
    + eapply IH; [| exact Hrun]. exact Hinv.
    + eapply IH; [| exact Hrun]. exact Hinv.
Qed.

Lemma accumulated_text_is_all_turns_witness :
  exists v' : Translator.locals,
    fst (Translator.receive_loop Demo.plain Demo.chatty Translator.initial_locals Demo.fresh)
    = Ok v'
    /\ Translator.accumulated_text v' = concat (Translator.assistant_messages v').
Proof.
  assert (match fst (Translator.receive_loop Demo.plain Demo.chatty
                       Translator.initial_locals Demo.fresh) with
          | Ok _ => true
          | Raise _ => false
          end = true) as Hok by (vm_compute; reflexivity).
  destruct (fst (Translator.receive_loop Demo.plain Demo.chatty
                   Translator.initial_locals Demo.fresh)) as [v'|e] eqn:Hrun;
    [| discriminate Hok].
  exists v'. split; [reflexivity |].
  exact (accumulated_text_is_all_turns Demo.plain Demo.chatty
           Translator.initial_locals v' Demo.fresh eq_refl Hrun).
Defined.

(** ** The alias table, continued *)

Lemma resolve_model_other (model : str) :
  model <> lit "haiku" -> model <> lit "sonnet" -> model <> lit "opus" ->
  Translator._resolve_model model = model.
Proof.
  intros H1 H2 H3. unfold Translator._resolve_model.
  replace (Translator.MODEL_ALIASES !! model) with (@None str); [reflexivity |].
  symmetry. unfold Translator.MODEL_ALIASES. lookup_other.
Qed.

(** X12.  Resolving a model name twice is resolving it once: no identifier
    in the table is itself an alias, so a resolved name can be handed to
    [Translator] again. *)
Theorem resolve_model_idempotent (model : str) :
  Translator._resolve_model (Translator._resolve_model model)
  = Translator._resolve_model model.
Proof.
  destruct (decide (model = lit "haiku")) as [-> | H1]; [vm_compute; reflexivity |].
  destruct (decide (model = lit "sonnet")) as [-> | H2]; [vm_compute; reflexivity |].
  destruct (decide (model = lit "opus")) as [-> | H3]; [vm_compute; reflexivity |].
  now rewrite !(resolve_model_other model H1 H2 H3).
Qed.

(** ** The configuration store, continued *)

Section ConfigMore.
Context `{Runtime}.

Lemma before_underscore_spec (lang : str) :
  (95 ∉ Config.before_underscore lang)
  /\ exists rest : str,
       lang = Config.before_underscore lang ++ rest
       /\ (rest = [] \/ head rest = Some 95).
Proof.
  induction lang as [|c lang (IHn & rest & IHe & IHr)].
  - split; [apply not_elem_of_nil |]. exists []. split; [reflexivity | now left].
  - cbn [Config.before_underscore]. destruct (Z.eqb_spec c 95) as [-> | Hc].
    + split; [apply not_elem_of_nil |]. exists (95 :: lang). split; [reflexivity | now right].
    + split.
      * intros Hin. apply elem_of_cons in Hin as [Heq | Hin]; [congruence | contradiction].
      * exists rest. split; [cbn; now rewrite <- IHe | exact IHr].
Qed.

End ConfigMore.

(** X13.  The system language is the part of the locale name before its
    first underscore: it holds no underscore, and the locale name is that
    part followed by nothing or by an underscore and the rest. *)
Theorem system_language_is_locale_prefix `{Runtime} (os : environ) (lang : str) :
  getdefaultlocale os = Ok (Some lang) -> lang <> [] ->
  (95 ∉ Config.get_system_language os)
  /\ exists rest : str,
       lang = Config.get_system_language os ++ rest
       /\ (rest = [] \/ head rest = Some 95).
Proof.
  intros Hloc Hne. unfold Config.get_system_language. rewrite Hloc.
  destruct lang as [|c lang]; [contradiction |].
  apply before_underscore_spec.
Qed.

Lemma system_language_is_locale_prefix_witness :
  Config.get_system_language Demo.os = lit "ja"
  /\ (95 ∉ Config.get_system_language Demo.os).
Proof.
  split; [reflexivity |].
  apply (system_language_is_locale_prefix Demo.os (lit "ja_JP") eq_refl).
  discriminate.
Defined.

(** X14.  On a first run, with no configuration file, creating a [Config]
    writes the defaults (the system language and ["haiku"]) and returns
    them; creating a [Config] again then finds the same values and writes
    nothing (PyYAML reading back what it wrote). *)
Theorem first_run_writes_defaults `{Runtime} (os : environ) (w : world) :
  config_yaml w = None -> yaml_round_trip ->
  exists (c : Config.t) (w' : world),
    Config.__init__ os w = (Ok c, w')
    /\ Config.native_language os c = Config.get_system_language os
    /\ Config.default_model c = lit "haiku"
    /\ config_yaml w' = Some (safe_dump (Config._config c))
    /\ Config.__init__ os w' = (Ok c, w').
Proof.
  intros Hnone yaml. unfold Config.__init__ at 1, Config._load_config. rewrite Hnone.
  eexists. eexists. split; [reflexivity |].
  split; [unfold Config.native_language; cbn; now rewrite lookup_insert_eq |].
  split; [vm_compute; reflexivity |].
  split; [reflexivity |].
  unfold Config.__init__, Config._load_config, Config._save_config. cbn.
  rewrite yaml. unfold Config.or_empty.
  match goal with
  | |- context [decide (?m = ∅)] => destruct (decide (m = ∅)) as [He|]
  end; [| reflexivity].
  now apply insert_non_empty in He.
Qed.

Lemma first_run_writes_defaults_witness :
  @yaml_round_trip Demo.runtime
  /\ exists (c : Config.t) (w' : world),
       Config.__init__ Demo.os Demo.fresh = (Ok c, w')
       /\ Config.native_language Demo.os c = lit "ja"
       /\ Config.default_model c = lit "haiku"
       /\ Config.__init__ Demo.os w' = (Ok c, w').
Proof.
  split; [exact demo_yaml_round_trip |].
  destruct (first_run_writes_defaults Demo.os Demo.fresh eq_refl demo_yaml_round_trip)
    as (c & w' & Hinit & Hlang & Hmodel & _ & Hagain).
  exists c, w'. repeat split; assumption.
Defined.

(** X15.  A configuration file that exists but holds an empty document is
    read as an empty mapping and left as it is: the accessors fall back to
    the system language and to ["haiku"], and no defaults are written. *)
Theorem empty_file_gives_defaults_unwritten `{Runtime}
    (os : environ) (w : world) (text : str) :
  config_yaml w = Some text -> safe_load text = Ok None ->
  exists c : Config.t,
    Config.__init__ os w = (Ok c, w)
    /\ Config.native_language os c = Config.get_system_language os
    /\ Config.default_model c = lit "haiku"
    /\ forall key d, Config.get c key d = d.
Proof.
  intros Hfile Hempty. unfold Config.__init__, Config._load_config.
  rewrite Hfile, Hempty. eexists. split; [reflexivity |].
  repeat split.
Qed.

Lemma empty_file_gives_defaults_unwritten_witness :
  exists c : Config.t,
    Config.__init__ Demo.os Demo2.empty_file = (Ok c, Demo2.empty_file)
    /\ Config.native_language Demo.os c = lit "ja"
    /\ Config.default_model c = lit "haiku".
Proof.
  destruct (empty_file_gives_defaults_unwritten Demo.os Demo2.empty_file []
              eq_refl eq_refl) as (c & Hinit & Hlang & Hmodel & _).
  exists c. repeat split; assumption.
Defined.

(** X17.  What [set] stores, [get] returns, and a second [set] of the same
    key replaces the first, in memory and in the file. *)
Theorem set_then_get_and_overwrite `{Runtime}
    (self : Config.t) (key v1 v2 : str) (d : option str) (w : world) :
  Config.get (fst (Config.set self key v1 w)) key d = Some v1
  /\ Config.set (fst (Config.set self key v1 w)) key v2 (snd (Config.set self key v1 w))
     = Config.set self key v2 w.
Proof.
  unfold Config.get, Config.set, Config._save_config. cbn.
  rewrite lookup_insert_eq, insert_insert_eq. split; reflexivity.
Qed.

(** X18.  Setting two different keys gives the same configuration and the
    same file in either order. *)
Theorem sets_of_different_keys_commute `{Runtime}
    (self : Config.t) (k1 v1 k2 v2 : str) (w : world) :
  k1 <> k2 ->
  Config.set (fst (Config.set self k1 v1 w)) k2 v2 (snd (Config.set self k1 v1 w))
  = Config.set (fst (Config.set self k2 v2 w)) k1 v1 (snd (Config.set self k2 v2 w)).
Proof.
  intros Hne. unfold Config.set, Config._save_config. cbn.
  now rewrite (insert_insert_ne _ k1 k2) by exact Hne.
Qed.

Lemma sets_of_different_keys_commute_witness :
  Config.set (H := Demo.runtime)
    (fst (Config.set (H := Demo.runtime) Demo.stored
            (lit "native_language") (lit "ja") Demo.fresh))
    (lit "default_model") (lit "opus")
    (snd (Config.set (H := Demo.runtime) Demo.stored
            (lit "native_language") (lit "ja") Demo.fresh))
  = Config.set (H := Demo.runtime)
      (fst (Config.set (H := Demo.runtime) Demo.stored
              (lit "default_model") (lit "opus") Demo.fresh))
      (lit "native_language") (lit "ja")
      (snd (Config.set (H := Demo.runtime) Demo.stored
              (lit "default_model") (lit "opus") Demo.fresh)).
Proof.
  apply (sets_of_different_keys_commute Demo.stored (lit "native_language") (lit "ja")
           (lit "default_model") (lit "opus") Demo.fresh).
  discriminate.
Defined.

(** ** The command line, continued *)

Section CliMore.
Context `{Runtime}.
Variable os : environ.
Variable service : agent.

Lemma config_init_keeps_live (w : world) :
  live (snd (Config.__init__ os w)) = live w
  /\ sent (snd (Config.__init__ os w)) = sent w.
Proof.
  unfold Config.__init__, Config._load_config.
  destruct (config_yaml w) as [text|]; [| split; reflexivity].
  destruct (safe_load text); split; reflexivity.
Qed.

(** Whatever the translator, a request of [main] is one call of
    [_translate_async] on a prompt fixed by the arguments, the
    configuration and the text. *)
Lemma request_is_one_call (a : Cli.args) (config : Config.t) (text : str) :
  exists prompt : str,
    forall (tr : Translator.t) (w : world),
      Cli.request os service tr a config text w
      = Translator._translate_async service tr prompt w.
Proof.
  unfold Cli.request, Translator.auto_translate, Translator.translate.
  destruct (truthy (Cli.target_language a)); eexists; intros tr w; reflexivity.
Qed.

Lemma quiet_translator_keeps {A : Type} (f : world -> A) (model : str) (d q : bool) :
  keeps f (Translator.__init__ model d q None).
Proof. intros cb msg cost w Hcb. discriminate. Qed.

Lemma loud_translator_keeps {A : Type} (f : world -> A) (model : str) (d q : bool) :
  (forall u l, f (Cli.set_live l u) = f u) ->
  keeps f (Translator.__init__ model d q (Some Cli.progress_callback)).
Proof. intros Hf cb msg cost w [= <-]. apply Hf. Qed.

End CliMore.

(** X16.  When the configuration file cannot be parsed, every command but
    [--version] ends with the parser's error before anything is printed or
    asked of the agent. *)
Theorem unreadable_config_stops_main `{Runtime}
    (os : environ) (service : agent) (a : Cli.args) (w : world)
    (text : str) (e : exn) :
  config_yaml w = Some text -> safe_load text = Raise e -> Cli.version a = false ->
  Cli.main os service a w = (Raise e, w).
Proof.
  intros Hfile Hbad Hv. unfold Cli.main, Config.__init__, Config._load_config.
  now rewrite Hv, Hfile, Hbad.
Qed.

Lemma unreadable_config_stops_main_witness :
  Cli.main Demo.os Demo.bonjour Demo.hello Demo2.broken_file
  = (Raise (lit "not a mapping"), Demo2.broken_file).
Proof.
  apply (unreadable_config_stops_main Demo.os Demo.bonjour Demo.hello Demo2.broken_file
           [58; 58] (lit "not a mapping")); reflexivity.
Defined.

(** Case analysis of [main] along its early returns, down to the call the
    request makes. *)
Ltac main_input :=
  match goal with
  | |- context [match ?i with None => _ | Some _ => _ end] =>
      destruct i as [[|c s]|] eqn:Hinput
  end.

Ltac main_request os service a :=
  match goal with
  | Hinit : Config.__init__ _ _ = (Ok ?config, _),
    Hinput : _ = Some (?c :: ?s) |- _ =>
      destruct (request_is_one_call os service a config (c :: s)) as [prompt Hreq];
      rewrite !Hreq
  end.

Ltac main_cases os service a w :=
  unfold Cli.main;
  destruct (Cli.version a) eqn:Hversion;
  [| destruct (config_init_frame os w) as [Hopened Hstdout];
     destruct (config_init_keeps_live os w) as [Hlive Hsent];
     destruct (Config.__init__ os w) as [[config|e0] w1] eqn:Hinit;
     cbn [fst snd] in Hopened, Hstdout, Hlive, Hsent;
     [destruct (Cli.show_config_flag a) eqn:Hshow;
      [| destruct (truthy (Cli.set_native_lang a)) eqn:Hsetn;
         [| destruct (truthy (Cli.set_default_model a)) eqn:Hsetm;
            [| main_input;
               [| main_request os service a;
                  destruct (Cli.quiet a) eqn:Hquiet |]]]] |]].

(** X19.  When [main] returns, its exit code is 0 or 1, and with exit
    code 1 it has printed nothing on the standard output. *)
Theorem main_exit_codes `{Runtime}
    (os : environ) (service : agent) (a : Cli.args) (w : world) (code : Z) :
  fst (Cli.main os service a w) = Ok code ->
  (code = 0 \/ code = 1)
  /\ (code = 1 -> stdout (snd (Cli.main os service a w)) = stdout w).
Proof.
  main_cases os service a w; cbn [fst snd]; try (intros [= <-]; split; [auto | discriminate]);
    try (intros [= <-]; split; [auto | intros _; assumption]); try discriminate.
  - match goal with
    | |- context [Translator._translate_async service ?tr prompt w1] =>
        pose proof (translate_async_prints_nothing service tr prompt w1
                      (quiet_translator_keeps stdout _ _ _)) as Hout;
        destruct (Translator._translate_async service tr prompt w1) as [[r|e1] w2]
    end; cbn [fst snd] in *; intros [= <-]; (split; [auto |]);
      [discriminate | intros _; congruence].
  - match goal with
    | |- context [Translator._translate_async service ?tr prompt ?w0] =>
        pose proof (translate_async_prints_nothing service tr prompt w0
                      (loud_translator_keeps stdout _ _ _ (fun _ _ => eq_refl))) as Hout;
        destruct (Translator._translate_async service tr prompt w0) as [[r|e1] w2]
    end; cbn [fst snd] in *; intros [= <-]; (split; [auto |]);
      [discriminate | intros _; cbn in *; congruence].
Qed.

(** X20.  One run of [main] opens at most one session with the agent, and
    none at all for [--version], [--show-config] and the two [--set]
    commands, which send nothing either. *)
Theorem main_opens_at_most_one_session `{Runtime}
    (os : environ) (service : agent) (a : Cli.args) (w : world) :
  (opened (snd (Cli.main os service a w)) = opened w
   \/ opened (snd (Cli.main os service a w)) = S (opened w))
  /\ (Cli.version a = true \/ Cli.show_config_flag a = true
      \/ truthy (Cli.set_native_lang a) = true
      \/ truthy (Cli.set_default_model a) = true ->
      opened (snd (Cli.main os service a w)) = opened w
      /\ sent (snd (Cli.main os service a w)) = sent w).
Proof.
  main_cases os service a w; cbn [fst snd];
    try (split; [left; cbn; congruence | intros _; cbn; split; congruence]);
    try (split; [left; cbn; congruence | intros [|[|[|]]]; congruence]).
  - match goal with
    | |- context [Translator._translate_async service ?tr prompt w1] =>
        pose proof (translate_async_opens_one service tr prompt w1
                      (quiet_translator_keeps opened _ _ _)) as Hone;
        destruct (Translator._translate_async service tr prompt w1) as [[r|e1] w2]
    end; cbn [fst snd] in *;
      (split; [right; cbn; congruence | intros [|[|[|]]]; congruence]).
  - match goal with
    | |- context [Translator._translate_async service ?tr prompt ?w0] =>
        pose proof (translate_async_opens_one service tr prompt w0
                      (loud_translator_keeps opened _ _ _ (fun _ _ => eq_refl))) as Hone;
        destruct (Translator._translate_async service tr prompt w0) as [[r|e1] w2]
    end; cbn [fst snd] in *;
      (split; [right; cbn in *; congruence | intros [|[|[|]]]; congruence]).
Qed.

Lemma main_opens_at_most_one_session_witness :
  opened (snd (Cli.main Demo.os Demo.bonjour Demo3.set_both Demo.fresh)) = 0%nat
  /\ sent (snd (Cli.main Demo.os Demo.bonjour Demo3.set_both Demo.fresh)) = [].
Proof.
  apply (main_opens_at_most_one_session Demo.os Demo.bonjour Demo3.set_both Demo.fresh).
  right. right. left. reflexivity.
Defined.

(** X21.  The commands do not combine: when [--set-native-lang] is given,
    [--set-default-model] is ignored, whatever its value. *)
Theorem set_native_lang_hides_set_default_model `{Runtime}
    (os : environ) (service : agent) (a : Cli.args) (x : option str) (w : world) :
  truthy (Cli.set_native_lang a) = true ->
  Cli.main os service (with_set_default_model x a) w = Cli.main os service a w.
Proof.
  intros Hset. unfold Cli.main, with_set_default_model.
  cbn [Cli.version Cli.show_config_flag Cli.set_native_lang Cli.set_default_model].
  rewrite Hset. reflexivity.
Qed.

Lemma set_native_lang_hides_set_default_model_witness :
  Cli.main Demo.os Demo.bonjour Demo3.set_both Demo.fresh
  = Cli.main Demo.os Demo.bonjour (with_set_default_model None Demo3.set_both) Demo.fresh.
Proof.
  symmetry.
  apply (set_native_lang_hides_set_default_model Demo.os Demo.bonjour Demo3.set_both
           None Demo.fresh).
  reflexivity.
Defined.

(** X22.  Without [--to], [--from] has no effect: the source language is
    detected, not taken from the command line. *)
Theorem from_is_ignored_without_to `{Runtime}
    (os : environ) (service : agent) (a : Cli.args) (s : option str) (w : world) :
  truthy (Cli.target_language a) = false ->
  Cli.main os service (with_source_language s a) w = Cli.main os service a w.
Proof.
  intros Hto. unfold Cli.main, Cli.request, with_source_language.
  cbn [Cli.version Cli.show_config_flag Cli.set_native_lang Cli.set_default_model
       Cli.text Cli.model Cli.quiet Cli.debug Cli.target_language Cli.source_language].
  rewrite Hto. reflexivity.
Qed.

Lemma from_is_ignored_without_to_witness :
  Cli.main Demo.os Demo.bonjour Demo3.from_only Demo.fresh
  = Cli.main Demo.os Demo.bonjour Demo.hello Demo.fresh.
Proof.
  apply (from_is_ignored_without_to Demo.os Demo.bonjour Demo.hello
           (Some (lit "de")) Demo.fresh).
  reflexivity.
Defined.

Section EmptyArguments.

Lemma truthy_absent_if_empty (o : option str) : truthy (absent_if_empty o) = truthy o.
Proof. now destruct o as [[|c s]|]. Qed.

Lemma or_else_absent_if_empty (o : option str) :
  or_else (absent_if_empty o) = or_else o.
Proof. now destruct o as [[|c s]|]. Qed.

Lemma default_absent_if_empty (o : option str) :
  default [] (absent_if_empty o) = default [] o.
Proof. now destruct o as [[|c s]|]. Qed.

End EmptyArguments.

(** X23.  An empty string given for the text, for [--to], for [--model] or
    for one of the [--set] options counts as the option not given. *)
Theorem empty_arguments_are_absent `{Runtime}
    (os : environ) (service : agent) (a : Cli.args) (w : world) :
  Cli.main os service (without_empty a) w = Cli.main os service a w.
Proof.
  unfold Cli.main, Cli.request, without_empty.
  cbn [Cli.version Cli.show_config_flag Cli.set_native_lang Cli.set_default_model
       Cli.text Cli.model Cli.quiet Cli.debug Cli.target_language Cli.source_language].
  rewrite !truthy_absent_if_empty, !or_else_absent_if_empty, !default_absent_if_empty.
  reflexivity.
Qed.

Section QuietFacts.
Context `{Runtime}.
Variable os : environ.
Variable service : agent.

(** The two translators of [main], on worlds that differ in the display
    only, return the same result and leave the same world but for the
    display. *)
Lemma quiet_and_loud_calls (model prompt : str) (d : bool) (w : world) :
  let q := Translator._translate_async service
             (Translator.__init__ model d true None) prompt w in
  let l := Translator._translate_async service
             (Translator.__init__ model d false (Some Cli.progress_callback)) prompt
             (Cli.set_live (Some []) w) in
  fst q = fst l
  /\ stdout (snd q) = stdout (snd l)
  /\ opened (snd q) = opened (snd l)
  /\ sent (snd q) = sent (snd l)
  /\ config_yaml (snd q) = config_yaml (snd l)
  /\ live (snd q) = live w.
Proof.
  intros q l. subst q l.
  split; [apply translate_async_blind; reflexivity |].
  split.
  { rewrite !translate_async_prints_nothing;
      [reflexivity | apply loud_translator_keeps; reflexivity
      | apply quiet_translator_keeps]. }
  split.
  { rewrite !translate_async_opens_one;
      [reflexivity | apply loud_translator_keeps; reflexivity
      | apply quiet_translator_keeps]. }
  split.
  { rewrite !translate_async_sent;
      [reflexivity | apply loud_translator_keeps; reflexivity
      | apply quiet_translator_keeps]. }
  split.
  { rewrite !(translate_async_keeps config_yaml);
      [reflexivity | reflexivity | apply loud_translator_keeps; reflexivity
      | reflexivity | apply quiet_translator_keeps]. }
  rewrite (translate_async_keeps live);
    [reflexivity | reflexivity | apply quiet_translator_keeps].
Qed.

End QuietFacts.

(** X24.  [--quiet] changes the progress display and nothing else: with
    and without it [main] ends with the same exit code or error, the same
    standard output, the same sessions and queries and the same
    configuration file; and a quiet run leaves the display untouched. *)
Theorem quiet_changes_only_the_display `{Runtime}
    (os : environ) (service : agent) (a : Cli.args) (w : world) :
  fst (Cli.main os service (with_quiet true a) w)
  = fst (Cli.main os service (with_quiet false a) w)
  /\ stdout (snd (Cli.main os service (with_quiet true a) w))
     = stdout (snd (Cli.main os service (with_quiet false a) w))
  /\ opened (snd (Cli.main os service (with_quiet true a) w))
     = opened (snd (Cli.main os service (with_quiet false a) w))
  /\ sent (snd (Cli.main os service (with_quiet true a) w))
     = sent (snd (Cli.main os service (with_quiet false a) w))
  /\ config_yaml (snd (Cli.main os service (with_quiet true a) w))
     = config_yaml (snd (Cli.main os service (with_quiet false a) w))
  /\ live (snd (Cli.main os service (with_quiet true a) w)) = live w.
Proof.
  unfold Cli.main, Cli.request, with_quiet.
  cbn [Cli.version Cli.show_config_flag Cli.set_native_lang Cli.set_default_model
       Cli.text Cli.model Cli.quiet Cli.debug Cli.target_language Cli.source_language].
  destruct (Cli.version a); [repeat split |].
  destruct (config_init_keeps_live os w) as [Hlive _].
  destruct (Config.__init__ os w) as [[config|e0] w1]; cbn [fst snd] in Hlive;
    [| repeat split; exact Hlive].
  destruct (Cli.show_config_flag a); [repeat split; exact Hlive |].
  destruct (truthy (Cli.set_native_lang a)); [repeat split; exact Hlive |].
  destruct (truthy (Cli.set_default_model a)); [repeat split; exact Hlive |].
  main_input; [repeat split; exact Hlive | | repeat split; exact Hlive].
  unfold Translator.auto_translate, Translator.translate.
  destruct (truthy (Cli.target_language a));
    match goal with
    | |- context [Translator._translate_async service
                    (Translator.__init__ ?m ?d true None) ?prompt w1] =>
        destruct (quiet_and_loud_calls service m prompt d w1)
          as (Hfst & Hout & Hopen & Hsent & Hconf & Hdisp);
        cbv zeta in Hfst, Hout, Hopen, Hsent, Hconf, Hdisp;
        destruct (Translator._translate_async service
                    (Translator.__init__ m d true None) prompt w1) as [[r|e1] w2];
        destruct (Translator._translate_async service
                    (Translator.__init__ m d false (Some Cli.progress_callback)) prompt
                    (Cli.set_live (Some []) w1)) as [[r'|e1'] w2']
    end; cbn [fst snd] in *; try discriminate;
    injection Hfst as <-; cbn; repeat split; congruence.
Qed.

Section FileFacts.
Context `{Runtime}.
Variable os : environ.
Variable service : agent.

Lemma translate_async_keeps_file (tr : Translator.t) (prompt : str) (w : world) :
  keeps config_yaml tr ->
  config_yaml (snd (Translator._translate_async service tr prompt w)) = config_yaml w.
Proof. intros Hk. now apply (translate_async_keeps config_yaml). Qed.

Lemma translate_async_trimmed (tr : Translator.t) (prompt : str) (w : world) (r : str) :
  fst (Translator._translate_async service tr prompt w) = Ok r -> strip r = r.
Proof.
  rewrite translate_async_result.
  destruct (transport_failure _); [discriminate |].
  intros [= <-]. unfold final_turn.
  destruct (last (turns _)) as [t|]; [apply strip_idem | reflexivity].
Qed.

(** A [Config] created over a file that holds a written mapping holds that
    mapping and writes nothing. *)
Lemma init_reads_dump (m : gmap str str) (u : world) :
  yaml_round_trip -> config_yaml u = Some (safe_dump m) -> m <> ∅ ->
  Config.__init__ os u
  = (Ok {| Config.config_file := config_file_path os; Config._config := m |}, u).
Proof.
  intros yaml Hfile Hne. unfold Config.__init__, Config._load_config.
  rewrite Hfile, yaml. unfold Config.or_empty.
  destruct (decide (m = ∅)); [contradiction | reflexivity].
Qed.

(** What creating a [Config] does to the file: nothing if it exists. *)
Lemma config_init_file (w : world) :
  match config_yaml w with
  | Some text => config_yaml (snd (Config.__init__ os w)) = Some text
  | None => exists text, config_yaml (snd (Config.__init__ os w)) = Some text
  end.
Proof.
  unfold Config.__init__, Config._load_config.
  destruct (config_yaml w) as [text|] eqn:Hfile.
  - destruct (safe_load text); exact Hfile.
  - eexists. reflexivity.
Qed.

End FileFacts.

(** X25.  Every command but [--version] leaves a configuration file behind:
    on a first run the defaults are written even by [--show-config] or by a
    translation that fails. *)
Theorem first_run_leaves_a_file `{Runtime}
    (os : environ) (service : agent) (a : Cli.args) (w : world) :
  config_yaml w = None -> Cli.version a = false ->
  exists text : str, config_yaml (snd (Cli.main os service a w)) = Some text.
Proof.
  intros Hnone Hv. pose proof (config_init_file os w) as Hfile.
  rewrite Hnone in Hfile. destruct Hfile as [text Hfile].
  main_cases os service a w; cbn [fst snd] in *; try discriminate;
    try (now exists text); try (eexists; reflexivity).
  - match goal with
    | |- context [Translator._translate_async service ?tr prompt w1] =>
        pose proof (translate_async_keeps_file service tr prompt w1
                      (quiet_translator_keeps config_yaml _ _ _)) as Hk;
        destruct (Translator._translate_async service tr prompt w1) as [[r|e1] w2]
    end; cbn [fst snd] in *; exists text; cbn; congruence.
  - match goal with
    | |- context [Translator._translate_async service ?tr prompt ?w0] =>
        pose proof (translate_async_keeps_file service tr prompt w0
                      (loud_translator_keeps config_yaml _ _ _ (fun _ _ => eq_refl))) as Hk;
        destruct (Translator._translate_async service tr prompt w0) as [[r|e1] w2]
    end; cbn [fst snd] in *; exists text; cbn in *; congruence.
Qed.

Lemma first_run_leaves_a_file_witness :
  exists text : str,
    config_yaml (snd (Cli.main Demo.os Demo.broken Demo.hello Demo.fresh)) = Some text.
Proof.
  apply (first_run_leaves_a_file Demo.os Demo.broken Demo.hello Demo.fresh); reflexivity.
Defined.

(** X26.  Without one of the two [--set] options, [main] never changes a
    configuration file that exists. *)
Theorem existing_file_changed_by_set_only `{Runtime}
    (os : environ) (service : agent) (a : Cli.args) (w : world) (text : str) :
  config_yaml w = Some text ->
  truthy (Cli.set_native_lang a) = false ->
  truthy (Cli.set_default_model a) = false ->
  config_yaml (snd (Cli.main os service a w)) = Some text.
Proof.
  intros Hsome Hn Hm. pose proof (config_init_file os w) as Hfile.
  rewrite Hsome in Hfile.
  main_cases os service a w; cbn [fst snd] in *; try discriminate; try assumption.
  - match goal with
    | |- context [Translator._translate_async service ?tr prompt w1] =>
        pose proof (translate_async_keeps_file service tr prompt w1
                      (quiet_translator_keeps config_yaml _ _ _)) as Hk;
        destruct (Translator._translate_async service tr prompt w1) as [[r|e1] w2]
    end; cbn [fst snd] in *; cbn; congruence.
  - match goal with
    | |- context [Translator._translate_async service ?tr prompt ?w0] =>
        pose proof (translate_async_keeps_file service tr prompt w0
                      (loud_translator_keeps config_yaml _ _ _ (fun _ _ => eq_refl))) as Hk;
        destruct (Translator._translate_async service tr prompt w0) as [[r|e1] w2]
    end; cbn [fst snd] in *; cbn in *; congruence.
Qed.

Lemma existing_file_changed_by_set_only_witness :
  config_yaml (snd (Cli.main Demo.os Demo.bonjour Demo.hello Demo2.empty_file)) = Some [].
Proof.
  apply (existing_file_changed_by_set_only Demo.os Demo.bonjour Demo.hello
           Demo2.empty_file []); reflexivity.
Defined.

(** X27.  When [main] is asked for a translation and exits with code 0, it
    has printed exactly one thing on the standard output, and that is a
    trimmed string. *)
Theorem success_prints_one_trimmed_line `{Runtime}
    (os : environ) (service : agent) (a : Cli.args) (w : world) :
  asks_translation a ->
  fst (Cli.main os service a w) = Ok 0 ->
  exists r : str,
    stdout (snd (Cli.main os service a w)) = stdout w ++ [r] /\ strip r = r.
Proof.
  intros (Hv & Hs & Hn & Hm).
  main_cases os service a w; cbn [fst snd] in *; try discriminate.
  - match goal with
    | |- context [Translator._translate_async service ?tr prompt w1] =>
        pose proof (translate_async_prints_nothing service tr prompt w1
                      (quiet_translator_keeps stdout _ _ _)) as Hout;
        pose proof (translate_async_trimmed service tr prompt w1) as Htrim;
        destruct (Translator._translate_async service tr prompt w1) as [[r|e1] w2]
    end; cbn [fst snd] in *; [| discriminate].
    intros _. exists r. split; [cbn; congruence | now apply Htrim].
  - match goal with
    | |- context [Translator._translate_async service ?tr prompt ?w0] =>
        pose proof (translate_async_prints_nothing service tr prompt w0
                      (loud_translator_keeps stdout _ _ _ (fun _ _ => eq_refl))) as Hout;
        pose proof (translate_async_trimmed service tr prompt w0) as Htrim;
        destruct (Translator._translate_async service tr prompt w0) as [[r|e1] w2]
    end; cbn [fst snd] in *; [| discriminate].
    intros _. exists r. split; [cbn in *; congruence | now apply Htrim].
Qed.

Lemma success_prints_one_trimmed_line_witness :
  exists r : str,
    stdout (snd (Cli.main Demo.os Demo.bonjour Demo.hello Demo.fresh)) = [] ++ [r]
    /\ strip r = r.
Proof.
  apply (success_prints_one_trimmed_line Demo.os Demo.bonjour Demo.hello Demo.fresh).
  - repeat split.
  - reflexivity.
Defined.

(** X28.  [cctr --set-native-lang v] on a readable configuration exits
    with code 0, and the next [Config] created from the file has [v] as
    native language and the default model the configuration had before
    (PyYAML reading back what it wrote). *)
Theorem cli_set_native_lang_persists `{Runtime}
    (os os' : environ) (service : agent) (a : Cli.args) (w : world)
    (v : str) (c : Config.t) :
  yaml_round_trip ->
  Cli.version a = false -> Cli.show_config_flag a = false ->
  Cli.set_native_lang a = Some v -> v <> [] ->
  fst (Config.__init__ os w) = Ok c ->
  fst (Cli.main os service a w) = Ok 0
  /\ exists c' : Config.t,
       Config.__init__ os' (snd (Cli.main os service a w))
       = (Ok c', snd (Cli.main os service a w))
       /\ Config.native_language os' c' = v
       /\ Config.default_model c' = Config.default_model c.
Proof.
  intros yaml Hv Hs Hset Hne Hinit. unfold Cli.main.
  rewrite Hv, Hset. destruct (Config.__init__ os w) as [[config|e0] w1];
    cbn [fst] in Hinit; [| discriminate].
  injection Hinit as ->. rewrite Hs.
  destruct v as [|ch v]; [contradiction |]. cbn [truthy default fst snd].
  unfold Config.set_native_language. cbn [fst snd].
  split; [reflexivity |].
  eexists. split.
  - apply init_reads_dump; [exact yaml | reflexivity | apply insert_non_empty].
  - unfold Config.native_language, Config.default_model. cbn.
    rewrite lookup_insert_eq, lookup_insert_ne by discriminate. split; reflexivity.
Qed.

Lemma cli_set_native_lang_persists_witness :
  @yaml_round_trip Demo.runtime
  /\ fst (Cli.main Demo.os Demo.bonjour Demo3.set_both Demo.fresh) = Ok 0
  /\ exists c' : Config.t,
       Config.__init__ Demo.os (snd (Cli.main Demo.os Demo.bonjour Demo3.set_both Demo.fresh))
       = (Ok c', snd (Cli.main Demo.os Demo.bonjour Demo3.set_both Demo.fresh))
       /\ Config.native_language Demo.os c' = lit "fr"
       /\ Config.default_model c' = lit "haiku".
Proof.
  split; [exact demo_yaml_round_trip |].
  destruct (cli_set_native_lang_persists Demo.os Demo.os Demo.bonjour Demo3.set_both
              Demo.fresh (lit "fr")
              {| Config.config_file := config_file_path Demo.os;
                 Config._config :=
                   <[lit "native_language" := lit "ja"]>
                   (<[lit "default_model" := lit "haiku"]> ∅) |}
              demo_yaml_round_trip eq_refl eq_refl eq_refl)
    as (Hcode & c' & Hload & Hlang & Hmodel).
  - discriminate.
  - reflexivity.
  - split; [exact Hcode |]. exists c'. split; [exact Hload |].
    split; [exact Hlang |]. rewrite Hmodel. vm_compute. reflexivity.
Defined.

Section InputFacts.
Context `{Runtime}.
Variable os : environ.
Variable service : agent.

(** The prompt of a request of [main] is built around the text as it is,
    with nothing after it. *)
Lemma request_prompt_shape (a : Cli.args) (config : Config.t) (text : str) :
  exists source_name target_name : str,
    forall (tr : Translator.t) (w : world),
      Cli.request os service tr a config text w
      = Translator._translate_async service tr
          (Translator.build_prompt source_name target_name text) w.
Proof.
  unfold Cli.request, Translator.auto_translate, Translator.translate.
  destruct (truthy (Cli.target_language a)); eexists; eexists; intros tr w; reflexivity.
Qed.

Lemma build_prompt_ends_with_text (source_name target_name text : str) :
  exists before : str,
    Translator.build_prompt source_name target_name text = before ++ text.
Proof.
  unfold Translator.build_prompt. eexists. rewrite !app_assoc. reflexivity.
Qed.

End InputFacts.

(** X29.  With no text on the command line, [main] exits with code 1
    without printing, opening a session or sending anything when the
    standard input is a terminal, and equally when what is piped in is
    white space only. *)
Theorem missing_or_blank_input_exits_1 `{Runtime}
    (os : environ) (service : agent) (a : Cli.args) (w : world) (c : Config.t) :
  asks_translation a ->
  truthy (Cli.text a) = false ->
  stdin_isatty os = true \/ Forall (fun ch => isspace ch = true) (stdin_read os) ->
  fst (Config.__init__ os w) = Ok c ->
  fst (Cli.main os service a w) = Ok 1
  /\ stdout (snd (Cli.main os service a w)) = stdout w
  /\ opened (snd (Cli.main os service a w)) = opened w
  /\ sent (snd (Cli.main os service a w)) = sent w.
Proof.
  intros (Hv & Hs & Hn & Hm) Htext Hin Hinit.
  destruct (config_init_frame os w) as [Hopened Hstdout].
  destruct (config_init_keeps_live os w) as [_ Hsent].
  unfold Cli.main. rewrite Hv.
  destruct (Config.__init__ os w) as [[config|e0] w1]; cbn [fst snd] in *; [| discriminate].
  rewrite Hs, Hn, Hm, Htext. cbv iota.
  match goal with
  | |- context [if stdin_isatty os then ?x else ?y] =>
      assert ((if stdin_isatty os then x else y) = None
              \/ (if stdin_isatty os then x else y) = Some []) as [-> | ->]
  end.
  { destruct Hin as [-> | Hblank]; [now left |].
    destruct (stdin_isatty os); [now left | right].
    now rewrite (strip_spaces _ Hblank). }
  - cbn. auto.
  - cbn. auto.
Qed.

Lemma missing_or_blank_input_exits_1_witness :
  Cli.main Demo.os Demo.bonjour Demo4.bare Demo2.empty_file = (Ok 1, Demo2.empty_file).
Proof.
  destruct (missing_or_blank_input_exits_1 Demo.os Demo.bonjour Demo4.bare
              Demo2.empty_file
              {| Config.config_file := config_file_path Demo.os; Config._config := ∅ |})
    as (Hcode & _).
  - repeat split.
  - reflexivity.
  - left. reflexivity.
  - reflexivity.
  - reflexivity.
Defined.

(** X30.  A text given on the command line is not trimmed and is never
    refused: even when it is white space only one session is opened, and
    the query, if the connection succeeds, names the model of [--model] or
    else the configured one, resolved through the alias table, and ends
    with the text exactly as given. *)
Theorem argument_text_is_sent_as_given `{Runtime}
    (os : environ) (service : agent) (a : Cli.args) (w : world)
    (c : Config.t) (ch : Z) (s : str) :
  asks_translation a ->
  Cli.text a = Some (ch :: s) ->
  fst (Config.__init__ os w) = Ok c ->
  opened (snd (Cli.main os service a w)) = S (opened w)
  /\ (sent (snd (Cli.main os service a w)) = sent w
      \/ exists before : str,
           sent (snd (Cli.main os service a w))
           = sent w ++
             [({| opt_model :=
                    Translator._resolve_model
                      (or_else (Cli.model a) (Config.default_model c));
                  permission_mode := lit "bypassPermissions" |},
               before ++ ch :: s)]).
Proof.
  intros (Hv & Hs & Hn & Hm) Htext Hinit.
  destruct (config_init_frame os w) as [Hopened _].
  destruct (config_init_keeps_live os w) as [_ Hsent].
  unfold Cli.main. rewrite Hv.
  destruct (Config.__init__ os w) as [[config|e0] w1]; cbn [fst snd] in *; [| discriminate].
  injection Hinit as ->. rewrite Hs, Hn, Hm, Htext.
  cbn [truthy default]. unfold id. cbv iota.
  destruct (request_prompt_shape os service a c (ch :: s)) as (sn & tn & Hreq).
  destruct (build_prompt_ends_with_text sn tn (ch :: s)) as [before Hprompt].
  rewrite Hprompt in Hreq. clear Hprompt. rewrite !Hreq.
  destruct (Cli.quiet a).
  - match goal with
    | |- context [Translator._translate_async service ?tr ?p w1] =>
        pose proof (translate_async_opens_one service tr p w1
                      (quiet_translator_keeps opened _ _ _)) as Hone;
        pose proof (translate_async_sent service tr p w1
                      (quiet_translator_keeps sent _ _ _)) as Hlog;
        destruct (Translator._translate_async service tr p w1) as [[r|e1] w2]
    end; cbn [fst snd] in *;
      (split; [cbn; congruence |]);
      (destruct (connect_error _);
       [left; cbn; congruence
       |right; exists before; cbn; rewrite Hlog, Hsent; reflexivity]).
  - match goal with
    | |- context [Translator._translate_async service ?tr ?p ?w0] =>
        pose proof (translate_async_opens_one service tr p w0
                      (loud_translator_keeps opened _ _ _ (fun _ _ => eq_refl))) as Hone;
        pose proof (translate_async_sent service tr p w0
                      (loud_translator_keeps sent _ _ _ (fun _ _ => eq_refl))) as Hlog;
        destruct (Translator._translate_async service tr p w0) as [[r|e1] w2]
    end; cbn [fst snd] in *;
      (split; [cbn in *; congruence |]);
      (destruct (connect_error _);
       [left; cbn in *; congruence
       |right; exists before; cbn in *; rewrite Hlog, Hsent; reflexivity]).
Qed.

Lemma argument_text_is_sent_as_given_witness :
  opened (snd (Cli.main Demo.os Demo.bonjour Demo4.blank_text Demo2.empty_file)) = 1%nat
  /\ exists before : str,
       sent (snd (Cli.main Demo.os Demo.bonjour Demo4.blank_text Demo2.empty_file))
       = [({| opt_model := lit "claude-3-5-sonnet-20241022";
              permission_mode := lit "bypassPermissions" |},
           before ++ [32; 32])].
Proof.
  destruct (argument_text_is_sent_as_given Demo.os Demo.bonjour Demo4.blank_text
              Demo2.empty_file
              {| Config.config_file := config_file_path Demo.os; Config._config := ∅ |}
              32 [32])
    as (Hone & [Hnone | (before & Hsent)]).
  - repeat split.
  - reflexivity.
  - reflexivity.
  - vm_compute in Hnone. discriminate.
  - split; [exact Hone |]. exists before. exact Hsent.
Defined.

Lemma main_exit_codes_witness :
  fst (Cli.main Demo.os Demo.broken Demo.hello Demo.fresh) = Ok 1
  /\ stdout (snd (Cli.main Demo.os Demo.broken Demo.hello Demo.fresh)) = [].
Proof.
  split; [reflexivity |].
  apply (main_exit_codes Demo.os Demo.broken Demo.hello Demo.fresh 1 eq_refl).
  reflexivity.
Defined.

(** * Turns and callbacks, once more *)

(** ** Turns: the code's and the glossary's *)


(** ** A callback that may raise *)

Section UnguardedFacts.
Context `{Runtime}.

Lemma notify_raised (self : Unguarded.t) (msg : str) (cost : option float)
    (w w' : world) (e : exn) :
  Unguarded.notify self msg cost w = (Some e, w') ->
  exists cb, Unguarded.progress_callback self = Some cb /\ Unguarded.raised_by cb e.
Proof.
  unfold Unguarded.notify. intros Hn.
  destruct (Unguarded.progress_callback self) as [cb|]; [| discriminate].
  destruct (negb (Unguarded.quiet self)); [| discriminate].
  exists cb. split; [reflexivity |]. exists msg, cost, w. now rewrite Hn.
Qed.

Lemma notify_without (self0 : Unguarded.t) (msg : str) (cost : option float) (w : world) :
  Unguarded.progress_callback self0 = None ->
  Unguarded.notify self0 msg cost w = (None, w).
Proof. intros H0. unfold Unguarded.notify. now rewrite H0. Qed.

Lemma for_blocks_or_raise (self self0 : Unguarded.t) (content : list block) :
  Unguarded.progress_callback self0 = None ->
  forall tb v w w0,
    match fst (Unguarded.for_blocks self content tb v w) with
    | Ok r => fst (Unguarded.for_blocks self0 content tb v w0) = Ok r
    | Raise e =>
        exists cb, Unguarded.progress_callback self = Some cb /\ Unguarded.raised_by cb e
    end.
Proof.
  intros H0. induction content as [|b rest IH]; intros tb v w w0; [reflexivity |].
  destruct b as [text | id name |]; cbn [Unguarded.for_blocks].
  - rewrite (notify_without self0 _ _ w0 H0).
    destruct (Unguarded.notify self _ None w) as [[e|] w'] eqn:Hn.
    + exact (notify_raised self _ _ w w' e Hn).
    + apply IH.
  - rewrite (notify_without self0 _ _ w0 H0).
    destruct (Unguarded.notify self _ None w) as [[e|] w'] eqn:Hn.
    + exact (notify_raised self _ _ w w' e Hn).
    + apply IH.
  - apply IH.
Qed.

Lemma on_result_or_raise (self self0 : Unguarded.t) (c : option float)
    (v : Translator.locals) (w w0 : world) :
  Unguarded.progress_callback self0 = None ->
  match fst (Unguarded.on_result self c v w) with
  | Ok r => fst (Unguarded.on_result self0 c v w0) = Ok r
  | Raise e =>
      exists cb, Unguarded.progress_callback self = Some cb /\ Unguarded.raised_by cb e
  end.
Proof.
  intros H0. unfold Unguarded.on_result.
  repeat match goal with
         | |- context [match ?x with Some _ => _ | None => _ end] =>
             lazymatch type of x with
             | option float => destruct x
             end
         | |- context [if ?x then _ else _] => destruct x
         end;
    rewrite (notify_without self0 _ _ w0 H0);
    match goal with
    | |- context [Unguarded.notify self ?msg ?cost w] =>
        destruct (Unguarded.notify self msg cost w) as [[e|] w'] eqn:Hn
    end; cbn [fst];
    try reflexivity; exact (notify_raised self _ _ w w' e Hn).
Qed.

Lemma receive_loop_or_raise (self self0 : Unguarded.t) (stream : list item) :
  Unguarded.progress_callback self0 = None ->
  forall v w w0,
    match fst (Unguarded.receive_loop self stream v w) with
    | Ok r => fst (Unguarded.receive_loop self0 stream v w0) = Ok r
    | Raise e =>
        fst (Unguarded.receive_loop self0 stream v w0) = Raise e
        \/ exists cb, Unguarded.progress_callback self = Some cb /\ Unguarded.raised_by cb e
    end.
Proof.
  intros H0. induction stream as [|i rest IH]; intros v w w0; [reflexivity |].
  destruct i as [m | e]; [| now left].
  destruct m as [content | c | |]; cbn [Unguarded.receive_loop].
  - match goal with
    | |- context [Unguarded.for_blocks self content [] ?v1 w] =>
        pose proof (for_blocks_or_raise self self0 content H0 [] v1 w w0) as Hb;
        destruct (Unguarded.for_blocks self content [] v1 w) as [[[tb v2]|e] w2];
        cbn [fst] in Hb
    end.
    + destruct (Unguarded.for_blocks self0 content [] _ w0) as [[[tb0 v0]|e0] w3];
        cbn [fst] in Hb; [| discriminate].
      injection Hb as -> ->. apply IH.
    + now right.
  - pose proof (on_result_or_raise self self0 c
                  {| Translator.assistant_messages := Translator.assistant_messages v;
                     Translator.message_count := Translator.message_count v + 1;
                     Translator.tool_uses := Translator.tool_uses v;
                     Translator.total_cost := Translator.total_cost v;
                     Translator.accumulated_text := Translator.accumulated_text v |}
                  w w0 H0) as Hr.
    destruct (fst (Unguarded.on_result self c _ w)); [exact Hr | now right].
  - apply IH.
  - apply IH.
Qed.

(** With a callback, [translate] returns what it returns without one,
    unless the callback raises, and then it raises what the callback
    raised. *)
Lemma translate_or_raise (service : agent) (self self0 : Unguarded.t)
    (text target : str) (source : option str) (w : world) :
  Unguarded.model self = Unguarded.model self0 ->
  Unguarded.progress_callback self0 = None ->
  fst (Unguarded.translate service self text target source w)
  = fst (Unguarded.translate service self0 text target source w)
  \/ exists e cb,
       Unguarded.progress_callback self = Some cb /\ Unguarded.raised_by cb e
       /\ fst (Unguarded.translate service self text target source w) = Raise e.
Proof.
  intros Hm H0. unfold Unguarded.translate, Unguarded._translate_async. rewrite Hm.
  destruct (connect_error _); [now left |].
  destruct (query_error _); [now left |].
  match goal with
  | |- context [Unguarded.receive_loop self ?s ?v ?w1] =>
      pose proof (receive_loop_or_raise self self0 s H0 v w1 w1) as Hl;
      destruct (Unguarded.receive_loop self s v w1) as [[v1|e1] u1];
      destruct (Unguarded.receive_loop self0 s v w1) as [[v0|e0] u0]
  end; cbn [fst] in *.
  - injection Hl as ->. now left.
  - discriminate.
  - destruct Hl as [Hl | (cb & Hcb & Hraised)]; [discriminate |].
    right. now exists e1, cb.
  - destruct Hl as [Hl | (cb & Hcb & Hraised)].
    + injection Hl as ->. now left.
    + right. now exists e1, cb.
Qed.

(** On callbacks that return, the code of this module is the code of
    [Translator]. *)
Lemma notify_of_translator (self : Translator.t) (msg : str) (cost : option float)
    (w : world) :
  Unguarded.notify (Unguarded.of_translator self) msg cost w
  = (None, Translator.notify self msg cost w).
Proof.
  unfold Unguarded.notify, Translator.notify, Unguarded.of_translator. cbn.
  destruct (Translator.progress_callback self); cbn; [| reflexivity].
  now destruct (negb (Translator.quiet self)).
Qed.

Lemma for_blocks_of_translator (self : Translator.t) (content : list block) :
  forall tb v w,
    Unguarded.for_blocks (Unguarded.of_translator self) content tb v w
    = (Ok (fst (Translator.for_blocks self content tb v w)),
       snd (Translator.for_blocks self content tb v w)).
Proof.
  induction content as [|b rest IH]; intros tb v w; [reflexivity |].
  destruct b as [text | id name |];
    cbn [Unguarded.for_blocks Translator.for_blocks];
    rewrite ?notify_of_translator; apply IH.
Qed.

Lemma receive_loop_of_translator (self : Translator.t) (stream : list item) :
  forall v w,
    Unguarded.receive_loop (Unguarded.of_translator self) stream v w
    = Translator.receive_loop self stream v w.
Proof.
  induction stream as [|i rest IH]; intros v w; [reflexivity |].
  destruct i as [m | e]; [| reflexivity].
  destruct m as [content | c | |];
    cbn [Unguarded.receive_loop Translator.receive_loop].
  - rewrite for_blocks_of_translator.
    destruct (Translator.for_blocks self content [] _ w) as [[tb v2] w2].
    cbn [fst snd]. apply IH.
  - unfold Unguarded.on_result, Translator.on_result.
    repeat match goal with
           | |- context [match ?x with Some _ => _ | None => _ end] => destruct x
           | |- context [if ?x then _ else _] => destruct x
           end; now rewrite notify_of_translator.
  - apply IH.
  - apply IH.
Qed.

Lemma translate_of_translator (service : agent) (self : Translator.t)
    (text target : str) (source : option str) (w : world) :
  Unguarded.translate service (Unguarded.of_translator self) text target source w
  = Translator.translate service self text target source w.
Proof.
  unfold Unguarded.translate, Translator.translate,
    Unguarded._translate_async, Translator._translate_async.
  cbn [Unguarded.model Unguarded.of_translator].
  destruct (connect_error _); [reflexivity |].
  destruct (query_error _); [reflexivity |].
  now rewrite receive_loop_of_translator.
Qed.

End UnguardedFacts.

(** C7, counterexample.  The callback raises at the first piece of text:
    [translate] raises with it and returns no string, though without a
    callback the same stream gives a translation. *)
Lemma raising_callback_changes_the_outcome :
  fst (Unguarded.translate Demo.bonjour (Demo5.with_callback (Some Demo5.failing))
         (lit "Hello") (lit "fr") None Demo.fresh)
    = Raise (lit "display closed")
  /\ fst (Unguarded.translate Demo.bonjour (Demo5.with_callback None)
            (lit "Hello") (lit "fr") None Demo.fresh)
     = Ok (lit "Bonjour")
  /\ fst (Unguarded.translate Demo.bonjour (Demo5.with_callback (Some Demo5.failing))
            (lit "Hello") (lit "fr") None Demo.fresh)
     <> fst (Unguarded.translate Demo.bonjour (Demo5.with_callback None)
               (lit "Hello") (lit "fr") None Demo.fresh).
Proof.
  split; [vm_compute; reflexivity |].
  split; [vm_compute; reflexivity |].
  vm_compute. discriminate.
Qed.

(** C7, as amended.  With a callback that returns from every call, whatever
    it does to the world with the message and cost it is handed, and
    whatever the [quiet] and [debug] flags, [translate] returns on the same
    stream the string it returns without a callback.  With any callback at
    all, [translate] either does so or raises an exception that the callback
    raised. *)
Theorem returning_callback_is_observational `{Runtime}
    (service : agent) (model : str) (debug debug' quiet quiet' : bool)
    (cb : Unguarded.callback)
    (text target : str) (source : option str) (w : world) :
  (Unguarded.returns_normally cb ->
   fst (Unguarded.translate service
          {| Unguarded.model := model; Unguarded.debug := debug;
             Unguarded.quiet := quiet; Unguarded.progress_callback := Some cb |}
          text target source w)
   = fst (Unguarded.translate service
            {| Unguarded.model := model; Unguarded.debug := debug';
               Unguarded.quiet := quiet'; Unguarded.progress_callback := None |}
            text target source w))
  /\ (fst (Unguarded.translate service
             {| Unguarded.model := model; Unguarded.debug := debug;
                Unguarded.quiet := quiet; Unguarded.progress_callback := Some cb |}
             text target source w)
      = fst (Unguarded.translate service
               {| Unguarded.model := model; Unguarded.debug := debug';
                  Unguarded.quiet := quiet'; Unguarded.progress_callback := None |}
               text target source w)
      \/ exists e : exn,
           Unguarded.raised_by cb e
           /\ fst (Unguarded.translate service
                     {| Unguarded.model := model; Unguarded.debug := debug;
                        Unguarded.quiet := quiet;
                        Unguarded.progress_callback := Some cb |}
                     text target source w)
              = Raise e).
Proof.
  pose proof (translate_or_raise service
                {| Unguarded.model := model; Unguarded.debug := debug;
                   Unguarded.quiet := quiet; Unguarded.progress_callback := Some cb |}
                {| Unguarded.model := model; Unguarded.debug := debug';
                   Unguarded.quiet := quiet'; Unguarded.progress_callback := None |}
                text target source w eq_refl eq_refl) as Hcases.
  split.
  - intros Hreturns. destruct Hcases as [Heq | (e & cb0 & [= <-] & (msg & cost & u & Hraise) & _)];
      [exact Heq |].
    rewrite Hreturns in Hraise. discriminate.
  - destruct Hcases as [Heq | (e & cb0 & [= <-] & Hraised & Hrun)]; [now left |].
    right. now exists e.
Qed.

Lemma returning_callback_is_observational_witness :
  Unguarded.returns_normally Demo5.showing
  /\ fst (Unguarded.translate Demo.bonjour (Demo5.with_callback (Some Demo5.showing))
            (lit "Hello") (lit "fr") None Demo.fresh)
     = fst (Unguarded.translate Demo.bonjour (Demo5.with_callback None)
              (lit "Hello") (lit "fr") None Demo.fresh).
Proof.
  assert (Unguarded.returns_normally Demo5.showing) as Hreturns
    by (intros msg cost u; reflexivity).
  split; [exact Hreturns |].
  apply (returning_callback_is_observational Demo.bonjour
           (lit "claude-3-5-haiku-20241022") false false false false Demo5.showing
           (lit "Hello") (lit "fr") None Demo.fresh).
  exact Hreturns.
Defined.
